(** * Guza_Mulima: hike telemetry parser and metrics

    A shallow embedding of the three scripts of the repository

      - [map.py]   ([load_hike_data], [altitudes], [get_color]),
      - [map2.py]  ([load_data], [altitudes]),
      - [map3.py]  ([haversine], [time_to_seconds], [load_data], the
                    distance / speed loop, [altitudes]),

    together with the parts of the Python runtime they call: [str]
    methods, [int], the [re.findall] calls with their two patterns, and
    [json.loads].

    Modelling conventions.
      - A Python [str] is a list of Unicode code points ([list N]).
      - A raised exception is a value [Raise e] of the [result] type; the
        text printed by [print] is returned as a list of diagnostics.
      - Python floats are idealised: a float read from a JSON literal is
        kept as the exact decimal [m * 10^e], and float arithmetic is real
        arithmetic.  Rounding, overflow and underflow are outside the
        model; the literals [NaN], [Infinity] and [-Infinity], which
        [json.loads] accepts, are kept as values of their own. *)

From Stdlib Require Import List ZArith NArith Ascii String Bool Lia.
From Stdlib Require Import Reals Lra.
Import ListNotations.

Set Warnings "-register-all".
Local Open Scope list_scope.

(** ** Python runtime *)

Module Py.

(** A [str]: a sequence of code points. *)
Definition str := list N.

(** A literal.  The apostrophe stands for the double quote, so that JSON
    text can be written inside a Rocq string literal. *)
Definition chr_of_ascii (a : ascii) : N :=
  let n := N_of_ascii a in if N.eqb n 39 then 34%N else n.

Definition lit (s : string) : str := map chr_of_ascii (list_ascii_of_string s).

Definition str_eqb (a b : str) : bool :=
  if list_eq_dec N.eq_dec a b then true else false.

(** [c.isspace()], which is also the class [\s] of [re] on [str]
    patterns. *)
Definition isspace (c : N) : bool :=
  ((9 <=? c) && (c <=? 13) || (28 <=? c) && (c <=? 32)
   || (c =? 133) || (c =? 160) || (c =? 5760)
   || (8192 <=? c) && (c <=? 8202)
   || (c =? 8232) || (c =? 8233) || (c =? 8239) || (c =? 8287)
   || (c =? 12288))%N.

Fixpoint lstrip_by (p : N -> bool) (s : str) : str :=
  match s with
  | c :: r => if p c then lstrip_by p r else s
  | [] => []
  end.

Definition rstrip_by (p : N -> bool) (s : str) : str :=
  rev (lstrip_by p (rev s)).

(** [s.strip()] *)
Definition strip (s : str) : str := rstrip_by isspace (lstrip_by isspace s).

(** [s.rstrip(',')] *)
Definition rstrip_comma (s : str) : str := rstrip_by (N.eqb 44) s.

(** [s.startswith(c)] and [s.endswith(c)] for a one-character [c]. *)
Definition startswith (c : N) (s : str) : bool :=
  match s with
  | x :: _ => N.eqb x c
  | [] => false
  end.

Definition endswith (c : N) (s : str) : bool := startswith c (rev s).

(** [s[:-1]] *)
Definition drop_last (s : str) : str := removelast s.

(** [s.split(":")] *)
Fixpoint split_colon_aux (cur : str) (s : str) : list str :=
  match s with
  | [] => [rev cur]
  | c :: r =>
      if N.eqb c 58 then rev cur :: split_colon_aux [] r
      else split_colon_aux (c :: cur) r
  end.

Definition split_colon (s : str) : list str := split_colon_aux [] s.

(** Exceptions the scripts can meet. *)
Inductive exn :=
| KeyError (k : str)
| ValueError
| TypeError
| AttributeError
| ZeroDivisionError
| NonFiniteFloat.  (* a NaN or an infinity reached float arithmetic:
                      outside the real-number idealisation *)

Inductive result (A : Type) :=
| Ok (a : A)
| Raise (e : exn).
Arguments Ok {A} a.
Arguments Raise {A} e.

Definition bind {A B} (m : result A) (k : A -> result B) : result B :=
  match m with
  | Ok a => k a
  | Raise e => Raise e
  end.

(** Values, as [json.loads] builds them. *)
Inductive value :=
| VNone
| VBool (b : bool)
| VInt (z : Z)
| VFloat (m e : Z)        (* the decimal m * 10^e *)
| VNaN
| VInf (negative : bool)
| VStr (s : str)
| VList (l : list value)
| VDict (d : list (str * value)).

(** A [dict] keeps its keys in insertion order; assigning to a key that
    is present replaces the value in place. *)
Fixpoint dict_lookup (d : list (str * value)) (k : str) : option value :=
  match d with
  | [] => None
  | (k', v) :: r => if str_eqb k' k then Some v else dict_lookup r k
  end.

Fixpoint dict_set (d : list (str * value)) (k : str) (v : value)
  : list (str * value) :=
  match d with
  | [] => [(k, v)]
  | (k', v') :: r =>
      if str_eqb k' k then (k', v) :: r else (k', v') :: dict_set r k v
  end.

(** [dict(pairs)] *)
Definition dict_of_pairs (pairs : list (str * value)) : list (str * value) :=
  fold_left (fun d kv => dict_set d (fst kv) (snd kv)) pairs [].

(** [isinstance(p, dict)] *)
Definition is_dict (p : value) : bool :=
  match p with
  | VDict _ => true
  | _ => false
  end.

(** [k in p], for [p] a dict. *)
Definition dict_has (d : list (str * value)) (k : str) : bool :=
  match dict_lookup d k with
  | Some _ => true
  | None => false
  end.

(** [p[k]] for a string key [k]: only a dict can be subscripted by a
    string. *)
Definition getitem (p : value) (k : str) : result value :=
  match p with
  | VDict d =>
      match dict_lookup d k with
      | Some v => Ok v
      | None => Raise (KeyError k)
      end
  | _ => Raise TypeError
  end.

(** [p.get(k, dflt)]: a dict method; any other value has no [get]. *)
Definition get (p : value) (k : str) (dflt : value) : result value :=
  match p with
  | VDict d =>
      match dict_lookup d k with
      | Some v => Ok v
      | None => Ok dflt
      end
  | _ => Raise AttributeError
  end.

(** [v != 0].  [False] equals [0]; a value that is not a number differs
    from [0]. *)
Definition ne_zero (v : value) : bool :=
  match v with
  | VBool b => b
  | VInt z => negb (Z.eqb z 0)
  | VFloat m _ => negb (Z.eqb m 0)
  | _ => true
  end.

(** [isinstance(v, (int, float))] with a finite value. *)
Definition is_number (v : value) : bool :=
  match v with
  | VBool _ | VInt _ | VFloat _ _ => true
  | _ => false
  end.

(** [a and b], [a or b]: the right operand is evaluated only when the left
    one does not decide. *)
Definition and_then (a b : result bool) : result bool :=
  bind a (fun x => if x then b else Ok false).

Definition or_else (a b : result bool) : result bool :=
  bind a (fun x => if x then Ok true else b).

(** A list comprehension [[x for x in l if p(x)]]. *)
Fixpoint filterM (p : value -> result bool) (l : list value)
  : result (list value) :=
  match l with
  | [] => Ok []
  | x :: r =>
      bind (p x) (fun b =>
      bind (filterM p r) (fun r' =>
      Ok (if b then x :: r' else r')))
  end.

(** A list comprehension [[f(x) for x in l]]. *)
Fixpoint mapM {A B} (f : A -> result B) (l : list A) : result (list B) :=
  match l with
  | [] => Ok []
  | x :: r => bind (f x) (fun y => bind (mapM f r) (fun r' => Ok (y :: r')))
  end.

(** [for p in v]: the items of a list, the keys of a dict, the characters
    of a string; other values are not iterable. *)
Definition iter (v : value) : result (list value) :=
  match v with
  | VList l => Ok l
  | VDict d => Ok (map (fun kv => VStr (fst kv)) d)
  | VStr s => Ok (map (fun c => VStr [c]) s)
  | _ => Raise TypeError
  end.

(** [int(s)] for a string [s], base 10: surrounding whitespace, an
    optional sign, digits with single underscores between them.  Only the
    ASCII digits are modelled. *)
Definition is_digit (c : N) : bool := ((48 <=? c) && (c <=? 57))%N.

Fixpoint int_digits (acc : Z) (after_digit : bool) (s : str) : option Z :=
  match s with
  | [] => if after_digit then Some acc else None
  | c :: r =>
      if is_digit c then int_digits (10 * acc + (Z.of_N c - 48)) true r
      else if (c =? 95)%N && after_digit then int_digits acc false r
      else None
  end.

Definition int_of_str (s : str) : result Z :=
  let body := strip s in
  let '(sgn, ds) := match body with
                    | c :: r =>
                        if (c =? 43)%N then (1%Z, r)
                        else if (c =? 45)%N then ((-1)%Z, r)
                        else (1%Z, body)
                    | [] => (1%Z, body)
                    end in
  match int_digits 0 false ds with
  | Some z => Ok (sgn * z)%Z
  | None => Raise ValueError
  end.

(** The real number a Python number stands for. *)
Definition to_float (v : value) : result R :=
  match v with
  | VBool b => Ok (if b then 1%R else 0%R)
  | VInt z => Ok (IZR z)
  | VFloat m e => Ok (IZR m * powerRZ 10 e)%R
  | VNaN | VInf _ => Raise NonFiniteFloat
  | _ => Raise TypeError
  end.

(** [x / y] *)
Definition truediv (x y : R) : result R :=
  if Req_dec_T y 0 then Raise ZeroDivisionError else Ok (x / y)%R.

(** [math.sqrt], [math.radians], [math.atan2] *)
Definition math_sqrt (x : R) : result R :=
  if Rlt_dec x 0 then Raise ValueError else Ok (sqrt x).

Definition math_radians (x : R) : R := (x * (PI / 180))%R.

Definition math_atan2 (y x : R) : R :=
  if Rlt_dec 0 x then atan (y / x)
  else if Rlt_dec x 0 then
         if Rle_dec 0 y then (atan (y / x) + PI)%R else (atan (y / x) - PI)%R
  else if Rlt_dec 0 y then (PI / 2)%R
  else if Rlt_dec y 0 then (- (PI / 2))%R
  else 0%R.

(** [s.count(c)] for a one-character [c]. *)
Definition count_char (c : N) (s : str) : nat :=
  List.length (filter (N.eqb c) s).

(** [try: m  except ValueError: handler] *)
Definition except_value_error {A} (m handler : result A) : result A :=
  match m with
  | Raise ValueError => handler
  | _ => m
  end.

End Py.

Notation "x <- m ;; k" := (Py.bind m (fun x => k))
  (at level 61, m at next level, right associativity).

(** ** [json.loads]

    The decoder of CPython's [json] package with its default settings
    ([strict=True], the scanner [scan_once], [JSONObject], [JSONArray],
    [scanstring] and the number pattern [NUMBER_RE]).  A position in the
    text is represented by the text that remains from it.  Every
    [JSONDecodeError] is the outcome [Fail]: the message is not kept.
    The interpreter's limits (recursion depth, the digit limit of [int])
    are not modelled.  *)

Module Json.
Import Py.

Local Open Scope N_scope.

(** The whitespace of JSON, [WHITESPACE = re.compile(r'[ \t\n\r]*')]. *)
Definition is_ws (c : N) : bool :=
  (c =? 32) || (c =? 9) || (c =? 10) || (c =? 13).

Fixpoint skip_ws (s : str) : str :=
  match s with
  | c :: r => if is_ws c then skip_ws r else s
  | [] => []
  end.

Definition is_digit (c : N) : bool := (48 <=? c) && (c <=? 57).

Definition hexval (c : N) : option N :=
  if (48 <=? c) && (c <=? 57) then Some (c - 48)
  else if (97 <=? c) && (c <=? 102) then Some (c - 87)
  else if (65 <=? c) && (c <=? 70) then Some (c - 55)
  else None.

(** The four hexadecimal digits of a [\uXXXX] escape. *)
Definition hex4 (a b c d : N) : option N :=
  match hexval a, hexval b, hexval c, hexval d with
  | Some x, Some y, Some z, Some w => Some (((x * 16 + y) * 16 + z) * 16 + w)
  | _, _, _, _ => None
  end.

(** The table [BACKSLASH] of one-letter escapes. *)
Definition backslash (c : N) : option N :=
  if c =? 34 then Some 34          (* \ quote *)
  else if c =? 92 then Some 92     (* \\ *)
  else if c =? 47 then Some 47     (* \/ *)
  else if c =? 98 then Some 8      (* \b *)
  else if c =? 102 then Some 12    (* \f *)
  else if c =? 110 then Some 10    (* \n *)
  else if c =? 114 then Some 13    (* \r *)
  else if c =? 116 then Some 9     (* \t *)
  else None.

Definition is_high_surrogate (u : N) : bool := (55296 <=? u) && (u <=? 56319).
Definition is_low_surrogate (u : N) : bool := (56320 <=? u) && (u <=? 57343).
Definition join_surrogates (hi lo : N) : N :=
  65536 + (((hi - 55296) * 1024) + (lo - 56320)).

(** [scanstring(s, end, strict=True)], from the character after the
    opening quote: the decoded string and the text after the closing
    quote. *)
Fixpoint scanstring (s : str) : option (str * str) :=
  match s with
  | [] => None                                    (* unterminated string *)
  | c :: r =>
      if c =? 34 then Some ([], r)
      else if c =? 92 then
        match r with
        | [] => None
        | e :: r1 =>
            if e =? 117 then
              match r1 with
              | h1 :: h2 :: h3 :: h4 :: r2 =>
                  match hex4 h1 h2 h3 h4 with
                  | None => None                  (* invalid \uXXXX escape *)
                  | Some uni =>
                      match r2 with
                      | b :: u :: g1 :: g2 :: g3 :: g4 :: r3 =>
                          if is_high_surrogate uni && (b =? 92) && (u =? 117)
                          then
                            match hex4 g1 g2 g3 g4 with
                            | None => None
                            | Some uni2 =>
                                if is_low_surrogate uni2 then
                                  match scanstring r3 with
                                  | Some (x, t) =>
                                      Some (join_surrogates uni uni2 :: x, t)
                                  | None => None
                                  end
                                else
                                  match scanstring r2 with
                                  | Some (x, t) => Some (uni :: x, t)
                                  | None => None
                                  end
                            end
                          else
                            match scanstring r2 with
                            | Some (x, t) => Some (uni :: x, t)
                            | None => None
                            end
                      | _ =>
                          match scanstring r2 with
                          | Some (x, t) => Some (uni :: x, t)
                          | None => None
                          end
                      end
                  end
              | _ => None
              end
            else
              match backslash e with
              | None => None                      (* invalid \escape *)
              | Some ch =>
                  match scanstring r1 with
                  | Some (x, t) => Some (ch :: x, t)
                  | None => None
                  end
              end
        end
      else if c <? 32 then None                   (* control character *)
      else
        match scanstring r with
        | Some (x, t) => Some (c :: x, t)
        | None => None
        end
  end.

Fixpoint span_digits (s : str) : str * str :=
  match s with
  | c :: r =>
      if is_digit c then let (ds, t) := span_digits r in (c :: ds, t)
      else ([], s)
  | [] => ([], [])
  end.

Definition digits_val (ds : str) : Z :=
  fold_left (fun a d => (10 * a + (Z.of_N d - 48))%Z) ds 0%Z.

(** The three groups of [NUMBER_RE]: the integer part (an optional minus
    sign, then either one zero or a non-zero digit followed by digits), an
    optional fraction (a dot and at least one digit) and an optional
    exponent (e or E, an optional sign, at least one digit). *)
Definition number_int (s : str) : option (bool * str * str) :=
  let '(neg, s1) := match s with
                    | c :: r => if c =? 45 then (true, r) else (false, s)
                    | [] => (false, s)
                    end in
  match s1 with
  | d :: r =>
      if d =? 48 then Some (neg, [d], r)
      else if is_digit d then let (ds, t) := span_digits s1 in Some (neg, ds, t)
      else None
  | [] => None
  end.

Definition number_frac (s : str) : option str * str :=
  match s with
  | c :: r =>
      if c =? 46 then
        match span_digits r with
        | ([], _) => (None, s)
        | (ds, t) => (Some ds, t)
        end
      else (None, s)
  | [] => (None, s)
  end.

Definition number_exp (s : str) : option Z * str :=
  match s with
  | c :: r =>
      if (c =? 101) || (c =? 69) then
        let '(sgn, r1) := match r with
                          | x :: u =>
                              if x =? 43 then (1%Z, u)
                              else if x =? 45 then ((-1)%Z, u)
                              else (1%Z, r)
                          | [] => (1%Z, r)
                          end in
        match span_digits r1 with
        | ([], _) => (None, s)
        | (ds, t) => (Some (sgn * digits_val ds)%Z, t)
        end
      else (None, s)
  | [] => (None, s)
  end.

(** [int(integer)] when there is neither fraction nor exponent, else
    [float(integer + frac + exp)], kept as an exact decimal. *)
Definition match_number (s : str) : option (value * str) :=
  match number_int s with
  | None => None
  | Some (neg, ip, r1) =>
      let sgn := if neg then (-1)%Z else 1%Z in
      let (frac, r2) := number_frac r1 in
      let (ex, r3) := number_exp r2 in
      match frac, ex with
      | None, None => Some (VInt (sgn * digits_val ip), r3)
      | _, _ =>
          let fd := match frac with Some ds => ds | None => [] end in
          let e := match ex with Some e => e | None => 0%Z end in
          Some (VFloat (sgn * digits_val (ip ++ fd))
                       (e - Z.of_nat (List.length fd)), r3)
      end
  end.

(** [s[idx:idx+n] == w] *)
Fixpoint strip_prefix (w s : str) : option str :=
  match w, s with
  | [], _ => Some s
  | a :: w', b :: s' => if a =? b then strip_prefix w' s' else None
  | _ :: _, [] => None
  end.

Inductive outcome (A : Type) :=
| Done (a : A) (rest : str)
| Fail
| OutOfFuel.
Arguments Done {A} a rest.
Arguments Fail {A}.
Arguments OutOfFuel {A}.

(** The literals tried after the number pattern has failed. *)
Definition scan_constant (s : str) : outcome value :=
  match strip_prefix (lit "NaN") s with
  | Some r => Done VNaN r
  | None =>
      match strip_prefix (lit "Infinity") s with
      | Some r => Done (VInf false) r
      | None =>
          match strip_prefix (lit "-Infinity") s with
          | Some r => Done (VInf true) r
          | None => Fail
          end
      end
  end.

Definition scan_atom (s : str) : outcome value :=
  match strip_prefix (lit "null") s with
  | Some r => Done VNone r
  | None =>
      match strip_prefix (lit "true") s with
      | Some r => Done (VBool true) r
      | None =>
          match strip_prefix (lit "false") s with
          | Some r => Done (VBool false) r
          | None =>
              match match_number s with
              | Some (v, r) => Done v r
              | None => scan_constant s
              end
          end
      end
  end.

(** [scan_once], with [JSONObject] and [JSONArray] inlined up to their
    loops: [object_pairs] starts after the opening quote of a key,
    [array_items] at the first character of an item.  The fuel bounds the
    number of nested calls. *)
Fixpoint scan_once (fuel : nat) (s : str) : outcome value :=
  match fuel with
  | O => OutOfFuel
  | S f =>
      match s with
      | [] => Fail
      | c :: r =>
          if c =? 34 then
            match scanstring r with
            | Some (x, t) => Done (VStr x) t
            | None => Fail
            end
          else if c =? 123 then
            match skip_ws r with
            | [] => Fail
            | c1 :: t =>
                if c1 =? 125 then Done (VDict []) t
                else if c1 =? 34 then
                  match object_pairs f t with
                  | Done pairs u => Done (VDict (dict_of_pairs pairs)) u
                  | Fail => Fail
                  | OutOfFuel => OutOfFuel
                  end
                else Fail
            end
          else if c =? 91 then
            match skip_ws r with
            | [] => Fail
            | c1 :: t =>
                if c1 =? 93 then Done (VList []) t
                else
                  match array_items f (c1 :: t) with
                  | Done items u => Done (VList items) u
                  | Fail => Fail
                  | OutOfFuel => OutOfFuel
                  end
            end
          else scan_atom s
      end
  end

with object_pairs (fuel : nat) (s : str) : outcome (list (str * value)) :=
  match fuel with
  | O => OutOfFuel
  | S f =>
      match scanstring s with
      | None => Fail
      | Some (key, r) =>
          match skip_ws r with
          | [] => Fail
          | c :: r1 =>
              if c =? 58 then
                match scan_once f (skip_ws r1) with
                | Done v r2 =>
                    match skip_ws r2 with
                    | [] => Fail
                    | c2 :: r3 =>
                        if c2 =? 125 then Done [(key, v)] r3
                        else if c2 =? 44 then
                          match skip_ws r3 with
                          | [] => Fail
                          | c3 :: r4 =>
                              if c3 =? 34 then
                                match object_pairs f r4 with
                                | Done pairs r5 => Done ((key, v) :: pairs) r5
                                | Fail => Fail
                                | OutOfFuel => OutOfFuel
                                end
                              else Fail
                          end
                        else Fail
                    end
                | Fail => Fail
                | OutOfFuel => OutOfFuel
                end
              else Fail
          end
      end
  end

with array_items (fuel : nat) (s : str) : outcome (list value) :=
  match fuel with
  | O => OutOfFuel
  | S f =>
      match scan_once f s with
      | Done v r =>
          match skip_ws r with
          | [] => Fail
          | c :: r1 =>
              if c =? 93 then Done [v] r1
              else if c =? 44 then
                match array_items f (skip_ws r1) with
                | Done items r2 => Done (v :: items) r2
                | Fail => Fail
                | OutOfFuel => OutOfFuel
                end
              else Fail
          end
      | Fail => Fail
      | OutOfFuel => OutOfFuel
      end
  end.

(** Fuel that is always enough (see [scan_once_fuel]). *)
Definition fuel_for (s : str) : nat := 2 * List.length s + 2.

(** [json.loads(s)]: [None] stands for a raised [JSONDecodeError]. *)
Definition loads (s : str) : option value :=
  if startswith 65279 s then None                (* byte order mark *)
  else
    match scan_once (fuel_for s) (skip_ws s) with
    | Done v r =>
        match skip_ws r with
        | [] => Some v
        | _ :: _ => None                         (* extra data *)
        end
    | _ => None
    end.

End Json.

(** ** [re.findall] with the two patterns of the scripts *)

Module Re.
Import Py.

Local Open Scope N_scope.

(** [$] without [re.MULTILINE]: at the end of the text, or before a
    newline that ends it. *)
Definition at_end (s : str) : bool :=
  match s with
  | [] => true
  | [c] => c =? 10
  | _ => false
  end.

(** The first branch of the lookahead: whitespace, a comma, whitespace, an
    opening brace. *)
Definition comma_then_brace (s : str) : bool :=
  startswith 44 (lstrip_by isspace s)
  && startswith 123 (lstrip_by isspace (tl (lstrip_by isspace s))).

Definition lookahead (s : str) : bool := comma_then_brace s || at_end s.

(** The lazy body of the pattern of [map.py], from the character after
    the opening brace: it stops at the first closing brace after which
    the lookahead holds ([re.DOTALL]: the dot matches every character).
    Result: the characters matched, the closing brace included, and the
    text after them. *)
Fixpoint lazy_close (s : str) : option (str * str) :=
  match s with
  | [] => None
  | c :: r =>
      if (c =? 125) && lookahead r then Some ([c], r)
      else
        match lazy_close r with
        | Some (m, t) => Some (c :: m, t)
        | None => None
        end
  end.

(** One match of the pattern of [map.py] at the start of [s]. *)
Definition match_hike (s : str) : option (str * str) :=
  match s with
  | c :: r =>
      if c =? 123 then
        match lazy_close r with
        | Some (m, t) => Some (c :: m, t)
        | None => None
        end
      else None
  | [] => None
  end.

(** The body of the pattern of [map2.py], an opening brace, characters
    other than braces, a closing brace. *)
Fixpoint plain_close (s : str) : option (str * str) :=
  match s with
  | [] => None
  | c :: r =>
      if c =? 125 then Some ([c], r)
      else if c =? 123 then None
      else
        match plain_close r with
        | Some (m, t) => Some (c :: m, t)
        | None => None
        end
  end.

Definition match_flat (s : str) : option (str * str) :=
  match s with
  | c :: r =>
      if c =? 123 then
        match plain_close r with
        | Some (m, t) => Some (c :: m, t)
        | None => None
        end
      else None
  | [] => None
  end.

(** [re.findall]: the matches from left to right, each search starting
    where the last match ended; [skip] counts the characters of the last
    match still to pass.  Both patterns match at least two characters, so
    no match is empty. *)
Fixpoint findall_from (match_at : str -> option (str * str)) (skip : nat)
  (s : str) : list str :=
  match s with
  | [] => []
  | _ :: r =>
      match skip with
      | S k => findall_from match_at k r
      | O =>
          match match_at s with
          | Some (m, _) => m :: findall_from match_at (List.length m - 1) r
          | None => findall_from match_at 0 r
          end
      end
  end.

Definition findall_hike (content : str) : list str :=
  findall_from match_hike 0 content.

Definition findall_flat (content : str) : list str :=
  findall_from match_flat 0 content.

End Re.

(** ** The parsing loop shared by [map.py] and [map2.py] (lines 21-33 of
    both) *)

Module Loop.
Import Py.

(** One diagnostic per skipped fragment: the first hundred characters of
    the fragment, as printed. *)
Definition body (st : list value * list str) (obj : str)
  : list value * list str :=
  let '(data, log) := st in
  let obj := strip obj in
  if negb (startswith 123 obj) then (data, log)
  else
    let obj := if negb (endswith 125 obj) then obj ++ [125%N] else obj in
    match Json.loads obj with
    | Some v => (data ++ [v], log)
    | None => (data, log ++ [firstn 100 obj])
    end.

Definition run (json_objects : list str) : list value * list str :=
  fold_left body json_objects ([], []).

End Loop.

(** ** [map.py] *)

Module Map1.
Import Py.

(** The condition of the filter, [point['lat'] != 0 or point['lng'] != 0]. *)
Definition keep (point : value) : result bool :=
  or_else (bind (getitem point (lit "lat")) (fun v => Ok (ne_zero v)))
          (bind (getitem point (lit "lng")) (fun v => Ok (ne_zero v))).

(** [load_hike_data], from the content of the file: what is printed, and
    what is returned or raised. *)
Definition load_hike_data (content : str) : list str * result (list value) :=
  let content := rstrip_comma (strip content) in
  let json_objects := Re.findall_hike content in
  let '(data, log) := Loop.run json_objects in
  (log, filterM keep data).

(** [altitudes = [p["altitude"] for p in hike_data]] *)
Definition altitudes (hike_data : list value) : result (list value) :=
  mapM (fun p => getitem p (lit "altitude")) hike_data.

(** [min(altitudes)], [max(altitudes)] on numbers. *)
Definition min_of (l : list R) : result R :=
  match l with
  | [] => Raise ValueError
  | x :: r => Ok (fold_left Rmin r x)
  end.

Definition max_of (l : list R) : result R :=
  match l with
  | [] => Raise ValueError
  | x :: r => Ok (fold_left Rmax r x)
  end.

(** [get_color(alt)], with the globals [min_alt] and [max_alt] as
    arguments; the result is the hue [120 * (1 - normalized)] that the
    function formats into its [hsl(...)] string. *)
Definition get_color (min_alt max_alt : R) (alt : R) : result R :=
  normalized <- truediv (alt - min_alt) (max_alt - min_alt) ;;
  Ok (120 * (1 - normalized))%R.


(** The series of the two sensor plots,
    [[p.get("dht_temp", 0) for p in hike_data]] and the same with
    ["dht_humidity"]. *)
Definition sensor_series (field : str) (hike_data : list value)
  : result (list value) :=
  mapM (fun p => get p field (VInt 0)) hike_data.

(** ** [datetime.strptime] with the two formats of the script

    [_strptime] turns the format into a pattern, one group for each
    directive, and matches it at the start of the text: [%H] is two digits
    from 20 to 23, or a digit 0 or 1 and a digit, or one digit; [%M] is a
    digit from 0 to 5 and a digit, or one digit; [%S] is 60 or 61, or a
    digit from 0 to 5 and a digit, or one digit.  The alternatives of a
    group are tried in this order, the next one when the rest of the
    pattern does not match after the one before.  Only the ASCII digits
    are modelled. *)
Definition digit_value (c : N) : Z := (Z.of_N c - 48)%Z.

Definition two_digits (p1 p2 : N -> bool) (s : str) : option (Z * str) :=
  match s with
  | a :: b :: r =>
      if p1 a && p2 b then Some ((10 * digit_value a + digit_value b)%Z, r)
      else None
  | _ => None
  end.

Definition one_digit (s : str) : option (Z * str) :=
  match s with
  | a :: r => if is_digit a then Some (digit_value a, r) else None
  | [] => None
  end.

Definition between (lo hi : N) (c : N) : bool := ((lo <=? c) && (c <=? hi))%N.

Definition hour_alternatives : list (str -> option (Z * str)) :=
  [two_digits (N.eqb 50) (between 48 51);
   two_digits (between 48 49) is_digit;
   one_digit].

Definition minute_alternatives : list (str -> option (Z * str)) :=
  [two_digits (between 48 53) is_digit; one_digit].

Definition second_alternatives : list (str -> option (Z * str)) :=
  [two_digits (N.eqb 54) (between 48 49);
   two_digits (between 48 53) is_digit;
   one_digit].

(** A group followed by the rest [k] of the pattern. *)
Fixpoint group {A} (alternatives : list (str -> option (Z * str)))
  (k : Z -> str -> option A) (s : str) : option A :=
  match alternatives with
  | [] => None
  | alt :: others =>
      match alt s with
      | Some (v, r) =>
          match k v r with
          | Some x => Some x
          | None => group others k s
          end
      | None => group others k s
      end
  end.

Definition colon {A} (k : str -> option A) (s : str) : option A :=
  match s with
  | c :: r => if (c =? 58)%N then k r else None
  | [] => None
  end.

(** The pattern of ["%M:%S"]: the two numbers and where the match ends. *)
Definition match_MS (s : str) : option (Z * Z * str) :=
  group minute_alternatives (fun m =>
    colon (group second_alternatives (fun sec r => Some (m, sec, r)))) s.

(** The pattern of ["%H:%M:%S"]. *)
Definition match_HMS (s : str) : option (Z * Z * Z * str) :=
  group hour_alternatives (fun h =>
    colon (group minute_alternatives (fun m =>
      colon (group second_alternatives (fun sec r => Some (h, m, sec, r)))))) s.

(** [datetime(1900, 1, 1, hour, minute, second)]: the time of day, for
    the hours and minutes the patterns let through. *)
Definition datetime (hour minute second : Z) : result (Z * Z * Z) :=
  if (second <=? 59)%Z then Ok (hour, minute, second) else Raise ValueError.

(** [datetime.strptime(s, "%H:%M:%S")] and
    [datetime.strptime(s, "%M:%S")] for a string [s]. *)
Definition strptime_HMS (s : str) : result (Z * Z * Z) :=
  match match_HMS s with
  | Some (h, m, sec, []) => datetime h m sec
  | _ => Raise ValueError
  end.

Definition strptime_MS (s : str) : result (Z * Z * Z) :=
  match match_MS s with
  | Some (m, sec, []) => datetime 0 m sec
  | _ => Raise ValueError
  end.

Definition strptime (hms : bool) (s : value) : result (Z * Z * Z) :=
  match s with
  | VStr s => if hms then strptime_HMS s else strptime_MS s
  | _ => Raise TypeError
  end.

(** [x.count(':')] for a value [x]. *)
Definition count_colons (x : value) : result nat :=
  match x with
  | VStr s => Ok (count_char 58 s)
  | VList l =>
      Ok (List.length (filter (fun x => match x with
                                        | VStr s => str_eqb s [58%N]
                                        | _ => false
                                        end) l))
  | _ => Raise AttributeError
  end.

(** The body of the loop of lines 109-117: the time appended to [times]
    for one record. *)
Definition convert (point : value) : result (Z * Z * Z) :=
  except_value_error
    (ts <- getitem point (lit "timestamp") ;; strptime true ts)
    (ts <- getitem point (lit "timestamp") ;;
     n <- count_colons ts ;;
     if Nat.eqb n 1 then
       ts <- getitem point (lit "timestamp") ;; strptime false ts
     else strptime true (VStr (lit "00:00:00"))).

Definition times (hike_data : list value) : result (list (Z * Z * Z)) :=
  mapM convert hike_data.

End Map1.

(** ** [map2.py] *)

Module Map2.
Import Py.

(** [point.get('lat', 1) != 0 or point.get('lng', 1) != 0] *)
Definition keep (point : value) : result bool :=
  or_else (bind (get point (lit "lat") (VInt 1)) (fun v => Ok (ne_zero v)))
          (bind (get point (lit "lng") (VInt 1)) (fun v => Ok (ne_zero v))).

Definition load_data (content : str) : list str * result (list value) :=
  let content := rstrip_comma (strip content) in
  let json_objects := Re.findall_flat content in
  let '(data, log) := Loop.run json_objects in
  (log, filterM keep data).

(** [altitudes = [p.get('altitude', 0) for p in hike_data]] *)
Definition altitudes (hike_data : list value) : result (list value) :=
  mapM (fun p => get p (lit "altitude") (VInt 0)) hike_data.

(** [calculate_distances].  [geodesic(prev, curr).km] is computed by the
    package [geopy]: it is a parameter, given the two pairs
    [(lat, lng)]. *)
Section CalculateDistances.

Variable geodesic_km : value * value -> value * value -> result R.

(** One turn of the loop, from [points[i-1]] and [points[i]]. *)
Definition step (before point : value) (last_distance : R) : result R :=
  lat1 <- getitem before (lit "lat") ;;
  lng1 <- getitem before (lit "lng") ;;
  lat2 <- getitem point (lit "lat") ;;
  lng2 <- getitem point (lit "lng") ;;
  km <- geodesic_km (lat1, lng1) (lat2, lng2) ;;
  Ok (last_distance + km)%R.

Fixpoint steps (before : value) (rest : list value) (distances : list R)
  : result (list R) :=
  match rest with
  | [] => Ok distances
  | point :: rest' =>
      d <- step before point (last distances 0%R) ;;
      steps point rest' (distances ++ [d])
  end.

Definition calculate_distances (points : list value) : result (list R) :=
  match points with
  | [] => Ok [0%R]
  | first :: rest => steps first rest [0%R]
  end.

End CalculateDistances.

End Map2.

(** ** [map3.py] *)

Module Map3.
Import Py.

Local Open Scope R_scope.

Definition haversine (lon1 lat1 lon2 lat2 : R) : result R :=
  let R := 6371 in
  let dLat := math_radians (lat2 - lat1) in
  let dLon := math_radians (lon2 - lon1) in
  let a := sin (dLat / 2) ^ 2 +
           cos (math_radians lat1) *
           cos (math_radians lat2) *
           sin (dLon / 2) ^ 2 in
  sa <- math_sqrt a ;;
  sb <- math_sqrt (1 - a) ;;
  let c := 2 * math_atan2 sa sb in
  Ok (R * c).

(** [while len(parts) < 3: parts.insert(0, 0)], [n] being the number of
    turns of the loop. *)
Fixpoint pad_front (n : nat) (parts : list Z) : list Z :=
  match n with
  | O => parts
  | S k => pad_front k (0%Z :: parts)
  end.

Definition time_to_seconds (t : value) : result Z :=
  match t with
  | VStr t =>
      let parts := split_colon (strip t) in
      parts <- mapM int_of_str parts ;;
      let parts := pad_front (3 - List.length parts) parts in
      match parts with
      | [hours; minutes; seconds] =>
          Ok (hours * 3600 + minutes * 60 + seconds)%Z
      | _ => Raise ValueError
      end
  | _ => Raise AttributeError
  end.

(** The condition of the filter of [load_data]. *)
Definition has_key (p : value) (k : str) : bool :=
  match p with
  | VDict d => dict_has d k
  | _ => false
  end.

Definition keep (p : value) : result bool :=
  and_then (Ok (is_dict p))
    (and_then (Ok (has_key p (lit "lat")))
       (and_then (Ok (has_key p (lit "lng")))
          (or_else (bind (getitem p (lit "lat")) (fun v => Ok (ne_zero v)))
                   (bind (getitem p (lit "lng")) (fun v => Ok (ne_zero v)))))).

(** [load_data], from the content of the file. *)
Definition load_data (content : str) : list str * result (list value) :=
  let text := strip content in
  let text := if endswith 44 text then drop_last text else text in
  let text := [91%N] ++ text ++ [93%N] in
  match Json.loads text with
  | None => ([lit "JSON error:"], Ok [])
  | Some data => ([], bind (iter data) (filterM keep))
  end.

(** The arguments of [haversine] are numbers. *)
Definition haversine_values (lon1 lat1 lon2 lat2 : value) : result R :=
  y2 <- to_float lat2 ;;
  y1 <- to_float lat1 ;;
  x2 <- to_float lon2 ;;
  x1 <- to_float lon1 ;;
  haversine x1 y1 x2 y2.

(** One turn of the loop of lines 66-79: the new last element of
    [distances] and of [speeds]. *)
Definition turn (prev curr : value) (last_distance : R) : result (R * R) :=
  lng1 <- getitem prev (lit "lng") ;;
  lat1 <- getitem prev (lit "lat") ;;
  lng2 <- getitem curr (lit "lng") ;;
  lat2 <- getitem curr (lit "lat") ;;
  dist <- haversine_values lng1 lat1 lng2 lat2 ;;
  tc <- bind (getitem curr (lit "timestamp")) time_to_seconds ;;
  tp <- bind (getitem prev (lit "timestamp")) time_to_seconds ;;
  let dt := (tc - tp)%Z in
  let dt := Z.max dt 1 in
  q <- truediv dist (IZR dt) ;;
  let speed := q * 3600 in
  Ok (last_distance + dist, speed).

Fixpoint turns (prev : value) (rest : list value) (distances speeds : list R)
  : result (list R * list R) :=
  match rest with
  | [] => Ok (distances, speeds)
  | curr :: rest' =>
      ds <- turn prev curr (last distances 0) ;;
      turns curr rest' (distances ++ [fst ds]) (speeds ++ [snd ds])
  end.

(** [distances] and [speeds] after the loop. *)
Definition metrics (hike_data : list value) : result (list R * list R) :=
  match hike_data with
  | [] => Ok ([0], [0])
  | first :: rest => turns first rest [0] [0]
  end.

(** [altitudes = [p.get('altitude', 0) for p in hike_data]] *)
Definition altitudes (hike_data : list value) : result (list value) :=
  mapM (fun p => get p (lit "altitude") (VInt 0)) hike_data.


End Map3.

(** ** Vocabulary of the properties *)

Module Track.
Import Py.

(** A fragment: a text between an opening and a closing brace. *)
Definition fragment (body : str) : str := 123%N :: body ++ [125%N].

Definition brace_free (body : str) : bool :=
  forallb (fun c => negb ((c =? 123) || (c =? 125))%N) body.

(** A text made of fragments: the fragment of body [first], then for
    each item [(w, w', body)] the separator [w ++ "," ++ w'] and the
    fragment of [body]. *)
Definition tail_of (items : list (str * str * str)) : str :=
  List.concat (map (fun it => fst (fst it) ++ 44%N :: snd (fst it)
                                ++ fragment (snd it)) items).

Definition sequence (first : str) (items : list (str * str * str)) : str :=
  fragment first ++ tail_of items.

Definition fragments_of (first : str) (items : list (str * str * str))
  : list str :=
  fragment first :: map (fun it => fragment (snd it)) items.

(** The separators are blank around their comma and the bodies hold no
    brace. *)
Definition blank (w : str) : bool := forallb isspace w.

Definition well_separated (first : str) (items : list (str * str * str))
  : bool :=
  brace_free first
  && forallb (fun it => blank (fst (fst it)) && blank (snd (fst it))
                        && brace_free (snd it)) items.

(** The fragments that decode, decoded, and those that do not. *)
Definition decode_all (frags : list str) : list value :=
  flat_map (fun f => match Json.loads f with
                     | Some v => [v]
                     | None => []
                     end) frags.

Definition malformed (frags : list str) : list str :=
  filter (fun f => match Json.loads f with
                   | Some _ => false
                   | None => true
                   end) frags.

(** A record of the track: an object with [lat] and [lng], not both equal
    to zero. *)
Definition track_point (p : value) : bool :=
  match p with
  | VDict d =>
      match dict_lookup d (lit "lat"), dict_lookup d (lit "lng") with
      | Some a, Some b => ne_zero a || ne_zero b
      | _, _ => false
      end
  | _ => false
  end.

(** The sentinel: [lat] and [lng] present and both equal to zero. *)
Definition sentinel (p : value) : bool :=
  match p with
  | VDict d =>
      match dict_lookup d (lit "lat"), dict_lookup d (lit "lng") with
      | Some a, Some b => negb (ne_zero a) && negb (ne_zero b)
      | _, _ => false
      end
  | _ => false
  end.

(** [lat] and [lng] present and numbers. *)
Definition numeric_coordinates (p : value) : bool :=
  match p with
  | VDict d =>
      match dict_lookup d (lit "lat"), dict_lookup d (lit "lng") with
      | Some a, Some b => is_number a && is_number b
      | _, _ => false
      end
  | _ => false
  end.

(** [l1] is [l2] with some elements left out. *)
Inductive subseq {A : Type} : list A -> list A -> Prop :=
| subseq_nil : subseq [] []
| subseq_skip x l1 l2 : subseq l1 l2 -> subseq l1 (x :: l2)
| subseq_keep x l1 l2 : subseq l1 l2 -> subseq (x :: l1) (x :: l2).

(** The texts [fs] occur in [s] one after the other, without overlap. *)
Inductive occurs_in_order : list str -> str -> Prop :=
| occurs_none s : occurs_in_order [] s
| occurs_next pre f fs rest :
    occurs_in_order fs rest -> occurs_in_order (f :: fs) (pre ++ f ++ rest).

(** A matcher is sound when what it matches is a prefix of the text and
    has the shape of a fragment. *)
Definition sound (match_at : str -> option (str * str)) : Prop :=
  forall s m t, match_at s = Some (m, t) ->
    s = m ++ t /\ exists body, m = fragment body.

(** The text that [load_data] of [map3.py] hands to the decoder. *)
Definition wrapped (content : str) : str :=
  let text := strip content in
  let text := if endswith 44 text then drop_last text else text in
  [91%N] ++ text ++ [93%N].

(** A record the loop of [map3.py] can measure: [lng] and [lat] are the
    numbers [x] and [y], and [timestamp] converts to [t] seconds. *)
Definition measurable (p : value) (s : R * R * Z) : Prop :=
  let '(x, y, t) := s in
  (exists vx vy,
      getitem p (lit "lng") = Ok vx /\ getitem p (lit "lat") = Ok vy
      /\ to_float vx = Ok x /\ to_float vy = Ok y)
  /\ bind (getitem p (lit "timestamp")) Map3.time_to_seconds = Ok t.

(** The distance between two measured records, [0] standing for a
    raised exception. *)
Definition hav (a b : R * R * Z) : R :=
  match Map3.haversine (fst (fst a)) (snd (fst a))
                       (fst (fst b)) (snd (fst b)) with
  | Ok d => d
  | Raise _ => 0%R
  end.

(** The elapsed time of a step, as the loop uses it. *)
Definition elapsed (a b : R * R * Z) : Z := Z.max (snd b - snd a) 1.

(** The distances and the speeds as section 4.2 of the specification
    defines them, from the record [prev] on, [d] being the distance
    reached at [prev]. *)
Fixpoint cumulative (d : R) (prev : R * R * Z) (rest : list (R * R * Z))
  : list R :=
  match rest with
  | [] => []
  | s :: rest' =>
      let d' := (d + hav prev s)%R in d' :: cumulative d' s rest'
  end.

Fixpoint rates (prev : R * R * Z) (rest : list (R * R * Z)) : list R :=
  match rest with
  | [] => []
  | s :: rest' =>
      (hav prev s / IZR (elapsed prev s) * 3600)%R :: rates s rest'
  end.

(** A component of a clock time: one digit or more, and the number they
    write. *)
Definition digits (ds : str) : bool :=
  match ds with
  | [] => false
  | _ :: _ => forallb is_digit ds
  end.

Definition decimal (ds : str) : Z :=
  fold_left (fun a d => (10 * a + (Z.of_N d - 48))%Z) ds 0%Z.



End Track.

(** ** Further vocabulary *)

Module More.
Import Py Track.

(** What a group of the patterns of [strptime] matches: one or two
    digits, read as a number below the bound of the group. *)
Definition field (bound : Z) (s : str) (v : Z) (r : str) : Prop :=
  exists ds, s = ds ++ r /\ digits ds = true /\ decimal ds = v
             /\ (0 <= v < bound)%Z.



End More.

(** * Facts about the runtime *)

Module PyFacts.
Import Py.

Lemma str_eqb_eq a b : str_eqb a b = true <-> a = b.
Proof.
  unfold str_eqb. destruct (list_eq_dec N.eq_dec a b); split; congruence.
Qed.

Lemma str_eqb_refl a : str_eqb a a = true.
Proof. now apply str_eqb_eq. Qed.

Lemma lstrip_by_keep p c s : p c = false -> lstrip_by p (c :: s) = c :: s.
Proof. intros H. simpl. now rewrite H. Qed.

Lemma rstrip_by_keep p c s : p c = false -> rstrip_by p (s ++ [c]) = s ++ [c].
Proof.
  intros H. unfold rstrip_by. rewrite rev_app_distr. simpl.
  rewrite H. simpl. now rewrite rev_involutive.
Qed.

(** A text between braces is left as it is by [strip] and by
    [rstrip(',')]. *)
Lemma strip_braced body :
  strip (123%N :: body ++ [125%N]) = 123%N :: body ++ [125%N].
Proof.
  unfold strip. rewrite lstrip_by_keep by reflexivity.
  change (123%N :: body ++ [125%N]) with ((123%N :: body) ++ [125%N]).
  now apply rstrip_by_keep.
Qed.


Lemma filterM_total p b l :
  (forall x, In x l -> p x = Ok (b x)) -> filterM p l = Ok (filter b l).
Proof.
  induction l as [|x l IH]; intros H; simpl; [reflexivity|].
  rewrite (H x (or_introl eq_refl)). simpl.
  rewrite IH by (intros y Hy; apply H; now right). simpl.
  reflexivity.
Qed.


End PyFacts.

(** * The decoder never runs out of fuel *)

Module JsonFacts.
Import Py Json.

Lemma skip_ws_length s : List.length (skip_ws s) <= List.length s.
Proof.
  induction s as [|c r IH]; simpl; [lia|].
  destruct (is_ws c); simpl; lia.
Qed.

Ltac break_match :=
  match goal with
  | H : context [match ?x with _ => _ end] |- _ =>
      destruct x eqn:?; try discriminate
  | H : context [if ?x then _ else _] |- _ =>
      destruct x eqn:?; try discriminate
  end.

Lemma scanstring_length n :
  forall s x t, List.length s <= n ->
    scanstring s = Some (x, t) -> List.length t < List.length s.
Proof.
  induction n as [|n IH]; intros s x t Hn H.
  - destruct s; [discriminate | simpl in Hn; lia].
  - destruct s as [|c r]; [discriminate|].
    simpl in Hn.
    cbn [scanstring] in H.
    repeat break_match;
      repeat match goal with
        | E : scanstring ?u = Some (_, ?v) |- _ =>
            apply IH in E; [|simpl in *; lia]
        end;
      try (injection H as <- <-); subst; simpl in *; try lia.
Qed.

Lemma span_digits_length s ds t :
  span_digits s = (ds, t) -> List.length s = List.length ds + List.length t.
Proof.
  revert ds t. induction s as [|c r IH]; intros ds t H; simpl in H.
  - injection H as <- <-. reflexivity.
  - destruct (is_digit c).
    + destruct (span_digits r) as [ds' t'] eqn:E.
      injection H as <- <-. simpl. rewrite (IH _ _ eq_refl). reflexivity.
    + injection H as <- <-. reflexivity.
Qed.

Lemma span_digits_shorter s ds t :
  span_digits s = (ds, t) -> List.length t <= List.length s.
Proof. intros H. apply span_digits_length in H. lia. Qed.

Lemma number_int_length s neg ip r :
  number_int s = Some (neg, ip, r) -> List.length r < List.length s.
Proof.
  unfold number_int. intros H.
  assert (G : forall (b : bool) (s1 : str), List.length s1 <= List.length s ->
            match s1 with
            | d :: r0 =>
                if (d =? 48)%N then Some (b, [d], r0)
                else if is_digit d
                     then let (ds, t) := span_digits s1 in Some (b, ds, t)
                     else None
            | [] => None
            end = Some (neg, ip, r) -> List.length r < List.length s).
  { intros b s1 Hs1 H1. destruct s1 as [|d r0]; [discriminate|].
    destruct (d =? 48)%N.
    - injection H1 as <- <- <-. simpl in Hs1. lia.
    - destruct (is_digit d) eqn:Hd; [|discriminate].
      destruct (span_digits (d :: r0)) as [ds t] eqn:E.
      injection H1 as <- <- <-.
      pose proof (span_digits_length _ _ _ E) as L.
      simpl in E. rewrite Hd in E.
      destruct (span_digits r0). injection E as <- <-.
      simpl in L, Hs1. lia. }
  destruct s as [|c s']; [discriminate|].
  destruct (c =? 45)%N.
  - apply (G true s'); [simpl; lia | exact H].
  - apply (G false (c :: s')); [lia | exact H].
Qed.

Lemma number_frac_length s f r :
  number_frac s = (f, r) -> List.length r <= List.length s.
Proof.
  unfold number_frac. intros H.
  destruct s as [|c s']; [injection H as <- <-; lia|].
  destruct (c =? 46)%N; [|injection H as <- <-; lia].
  destruct (span_digits s') as [ds t] eqn:E.
  apply span_digits_shorter in E.
  destruct ds; injection H as <- <-; simpl; lia.
Qed.

Lemma number_exp_length s e r :
  number_exp s = (e, r) -> List.length r <= List.length s.
Proof.
  unfold number_exp. intros H.
  destruct s as [|c s']; [injection H as <- <-; lia|].
  destruct ((c =? 101)%N || (c =? 69)%N); [|injection H as <- <-; lia].
  assert (G : forall u : str, List.length u <= List.length s' ->
            forall ds t, span_digits u = (ds, t) ->
            List.length t <= List.length (c :: s')).
  { intros u Hu ds t E. apply span_digits_shorter in E. simpl. lia. }
  destruct s' as [|x u]; simpl in H.
  - injection H as <- <-. simpl. lia.
  - destruct (x =? 43)%N; [|destruct (x =? 45)%N];
      match type of H with
      | context [span_digits ?U] =>
          destruct (span_digits U) as [ds t] eqn:E;
          apply G in E; [|simpl; lia];
          destruct ds; injection H as <- <-; simpl in *; lia
      end.
Qed.

Lemma match_number_length s v r :
  match_number s = Some (v, r) -> List.length r < List.length s.
Proof.
  unfold match_number. intros H.
  destruct (number_int s) as [[[neg ip] r1]|] eqn:E1; [|discriminate].
  apply number_int_length in E1.
  destruct (number_frac r1) as [frac r2] eqn:E2.
  apply number_frac_length in E2.
  destruct (number_exp r2) as [ex r3] eqn:E3.
  apply number_exp_length in E3.
  destruct frac, ex; injection H as <- <-; lia.
Qed.

Lemma strip_prefix_length w s r :
  strip_prefix w s = Some r -> List.length s = List.length w + List.length r.
Proof.
  revert s. induction w as [|a w IH]; intros s H; simpl in H.
  - injection H as <-. reflexivity.
  - destruct s as [|b s']; [discriminate|].
    destruct (a =? b)%N; [|discriminate].
    simpl. rewrite (IH _ H). reflexivity.
Qed.

Lemma scan_atom_length s v r :
  scan_atom s = Done v r -> List.length r < List.length s.
Proof.
  unfold scan_atom, scan_constant. intros H.
  repeat match type of H with
    | context [strip_prefix ?w s] =>
        let E := fresh "E" in
        destruct (strip_prefix w s) eqn:E;
        [apply strip_prefix_length in E; injection H as <- <-;
         simpl in E; lia|]
    | context [match_number s] =>
        let E := fresh "E" in
        destruct (match_number s) as [[? ?]|] eqn:E;
        [apply match_number_length in E; injection H as <- <-; lia|]
    end.
  discriminate.
Qed.

Lemma scan_atom_fuel s : scan_atom s <> OutOfFuel.
Proof.
  unfold scan_atom, scan_constant.
  repeat match goal with
    | |- context [strip_prefix ?w s] => destruct (strip_prefix w s)
    | |- context [match_number s] => destruct (match_number s) as [[? ?]|]
    end; discriminate.
Qed.

(** What a successful call leaves is shorter than what it was given. *)
Lemma scan_length fuel :
  (forall s v r, scan_once fuel s = Done v r -> List.length r < List.length s)
  /\ (forall s v r, object_pairs fuel s = Done v r ->
        List.length r < List.length s)
  /\ (forall s v r, array_items fuel s = Done v r ->
        List.length r < List.length s).
Proof.
  induction fuel as [|f (IHs & IHo & IHa)];
    [repeat split; intros; discriminate|].
  repeat split; intros s v r H; cbn [scan_once object_pairs array_items] in H.
  - destruct s as [|c s']; [discriminate|].
    destruct (c =? 34)%N.
    { destruct (scanstring s') as [[x t]|] eqn:E; [|discriminate].
      apply (scanstring_length _ _ _ _ (le_n _)) in E.
      injection H as <- <-. simpl. lia. }
    destruct (c =? 123)%N.
    { pose proof (skip_ws_length s') as L.
      destruct (skip_ws s') as [|c1 t]; [discriminate|].
      destruct (c1 =? 125)%N; [injection H as <- <-; simpl in *; lia|].
      destruct (c1 =? 34)%N; [|discriminate].
      destruct (object_pairs f t) eqn:E; try discriminate.
      apply IHo in E. injection H as <- <-. simpl in *. lia. }
    destruct (c =? 91)%N.
    { pose proof (skip_ws_length s') as L.
      destruct (skip_ws s') as [|c1 t]; [discriminate|].
      destruct (c1 =? 93)%N; [injection H as <- <-; simpl in *; lia|].
      destruct (array_items f (c1 :: t)) eqn:E; try discriminate.
      apply IHa in E. injection H as <- <-. simpl in *. lia. }
    now apply scan_atom_length in H.
  - destruct (scanstring s) as [[key r0]|] eqn:E0; [|discriminate].
    apply (scanstring_length _ _ _ _ (le_n _)) in E0.
    pose proof (skip_ws_length r0) as L0.
    destruct (skip_ws r0) as [|c r1]; [discriminate|].
    destruct (c =? 58)%N; [|discriminate].
    pose proof (skip_ws_length r1) as L1.
    destruct (scan_once f (skip_ws r1)) as [v1 r2| |] eqn:E1; try discriminate.
    apply IHs in E1.
    pose proof (skip_ws_length r2) as L2.
    destruct (skip_ws r2) as [|c2 r3]; [discriminate|].
    destruct (c2 =? 125)%N; [injection H as <- <-; simpl in *; lia|].
    destruct (c2 =? 44)%N; [|discriminate].
    pose proof (skip_ws_length r3) as L3.
    destruct (skip_ws r3) as [|c3 r4]; [discriminate|].
    destruct (c3 =? 34)%N; [|discriminate].
    destruct (object_pairs f r4) eqn:E4; try discriminate.
    apply IHo in E4. injection H as <- <-. simpl in *. lia.
  - destruct (scan_once f s) as [v1 r1| |] eqn:E1; try discriminate.
    apply IHs in E1.
    pose proof (skip_ws_length r1) as L1.
    destruct (skip_ws r1) as [|c r2]; [discriminate|].
    destruct (c =? 93)%N; [injection H as <- <-; simpl in *; lia|].
    destruct (c =? 44)%N; [|discriminate].
    pose proof (skip_ws_length r2) as L2.
    destruct (array_items f (skip_ws r2)) eqn:E2; try discriminate.
    apply IHa in E2. injection H as <- <-. simpl in *. lia.
Qed.

(** Two units of fuel for each character are enough. *)
Lemma scan_fuel fuel :
  (forall s, 2 * List.length s + 1 <= fuel -> scan_once fuel s <> OutOfFuel)
  /\ (forall s, 2 * List.length s + 1 <= fuel ->
        object_pairs fuel s <> OutOfFuel)
  /\ (forall s, 2 * List.length s + 2 <= fuel ->
        array_items fuel s <> OutOfFuel).
Proof.
  induction fuel as [|f (IHs & IHo & IHa)];
    [repeat split; intros; lia|].
  repeat split; intros s Hf; cbn [scan_once object_pairs array_items].
  - destruct s as [|c s']; [discriminate|]. simpl in Hf.
    destruct (c =? 34)%N.
    { destruct (scanstring s') as [[x t]|]; discriminate. }
    destruct (c =? 123)%N.
    { pose proof (skip_ws_length s') as L.
      destruct (skip_ws s') as [|c1 t]; [discriminate|].
      destruct (c1 =? 125)%N; [discriminate|].
      destruct (c1 =? 34)%N; [|discriminate].
      destruct (object_pairs f t) eqn:E; try discriminate.
      exfalso. apply (IHo t); [simpl in *; lia | exact E]. }
    destruct (c =? 91)%N.
    { pose proof (skip_ws_length s') as L.
      destruct (skip_ws s') as [|c1 t]; [discriminate|].
      destruct (c1 =? 93)%N; [discriminate|].
      destruct (array_items f (c1 :: t)) eqn:E; try discriminate.
      exfalso. apply (IHa (c1 :: t)); [simpl in *; lia | exact E]. }
    apply scan_atom_fuel.
  - destruct (scanstring s) as [[key r0]|] eqn:E0; [|discriminate].
    apply (scanstring_length _ _ _ _ (le_n _)) in E0.
    pose proof (skip_ws_length r0) as L0.
    destruct (skip_ws r0) as [|c r1]; [discriminate|].
    destruct (c =? 58)%N; [|discriminate].
    pose proof (skip_ws_length r1) as L1.
    destruct (scan_once f (skip_ws r1)) as [v1 r2| |] eqn:E1;
      [|discriminate
       |exfalso; apply (IHs (skip_ws r1)); [simpl in *; lia | exact E1]].
    apply (proj1 (scan_length f)) in E1.
    pose proof (skip_ws_length r2) as L2.
    destruct (skip_ws r2) as [|c2 r3]; [discriminate|].
    destruct (c2 =? 125)%N; [discriminate|].
    destruct (c2 =? 44)%N; [|discriminate].
    pose proof (skip_ws_length r3) as L3.
    destruct (skip_ws r3) as [|c3 r4]; [discriminate|].
    destruct (c3 =? 34)%N; [|discriminate].
    destruct (object_pairs f r4) eqn:E4; try discriminate.
    exfalso. apply (IHo r4); [simpl in *; lia | exact E4].
  - destruct (scan_once f s) as [v1 r1| |] eqn:E1;
      [|discriminate|exfalso; apply (IHs s); [lia | exact E1]].
    apply (proj1 (scan_length f)) in E1.
    pose proof (skip_ws_length r1) as L1.
    destruct (skip_ws r1) as [|c r2]; [discriminate|].
    destruct (c =? 93)%N; [discriminate|].
    destruct (c =? 44)%N; [|discriminate].
    pose proof (skip_ws_length r2) as L2.
    destruct (array_items f (skip_ws r2)) eqn:E2; try discriminate.
    exfalso. apply (IHa (skip_ws r2)); [simpl in *; lia | exact E2].
Qed.

(** [loads] gives the scanner all the fuel it can use: a [None] is a
    decoding error of the text, never a lack of fuel. *)
Lemma scan_once_fuel s : scan_once (fuel_for s) (skip_ws s) <> OutOfFuel.
Proof.
  apply (proj1 (scan_fuel (fuel_for s))).
  pose proof (skip_ws_length s). unfold fuel_for. lia.
Qed.

End JsonFacts.

Module ReFacts.
Import Py Re Track.

Lemma findall_from_skip m xs rest :
  findall_from m (List.length xs) (xs ++ rest) = findall_from m 0 rest.
Proof.
  induction xs as [|x xs IH]; simpl; [|exact IH].
  destruct rest; reflexivity.
Qed.

(** A successful match is a prefix of the text, and it ends with the
    closing brace. *)
Lemma lazy_close_sound s m t :
  lazy_close s = Some (m, t) -> s = m ++ t /\ exists x, m = x ++ [125%N].
Proof.
  revert m t. induction s as [|c r IH]; intros m t H; simpl in H;
    [discriminate|].
  destruct ((c =? 125)%N && lookahead r) eqn:E.
  - injection H as <- <-. apply andb_prop in E as [E _].
    apply N.eqb_eq in E. subst c. split; [reflexivity | now exists []].
  - destruct (lazy_close r) as [[m' t']|]; [|discriminate].
    injection H as <- <-. destruct (IH _ _ eq_refl) as [-> [x ->]].
    split; [reflexivity | now exists (c :: x)].
Qed.

Lemma plain_close_sound s m t :
  plain_close s = Some (m, t) -> s = m ++ t /\ exists x, m = x ++ [125%N].
Proof.
  revert m t. induction s as [|c r IH]; intros m t H; simpl in H;
    [discriminate|].
  destruct (c =? 125)%N eqn:E.
  - injection H as <- <-. apply N.eqb_eq in E. subst c.
    split; [reflexivity | now exists []].
  - destruct (c =? 123)%N; [discriminate|].
    destruct (plain_close r) as [[m' t']|]; [|discriminate].
    injection H as <- <-. destruct (IH _ _ eq_refl) as [-> [x ->]].
    split; [reflexivity | now exists (c :: x)].
Qed.

Lemma match_hike_sound : sound match_hike.
Proof.
  intros s m t H. unfold match_hike in H.
  destruct s as [|c r]; [discriminate|].
  destruct (c =? 123)%N eqn:E; [|discriminate].
  apply N.eqb_eq in E. subst c.
  destruct (lazy_close r) as [[m' t']|] eqn:L; [|discriminate].
  injection H as <- <-. apply lazy_close_sound in L as [-> [x ->]].
  split; [reflexivity | now exists x].
Qed.

Lemma match_flat_sound : sound match_flat.
Proof.
  intros s m t H. unfold match_flat in H.
  destruct s as [|c r]; [discriminate|].
  destruct (c =? 123)%N eqn:E; [|discriminate].
  apply N.eqb_eq in E. subst c.
  destruct (plain_close r) as [[m' t']|] eqn:L; [|discriminate].
  injection H as <- <-. apply plain_close_sound in L as [-> [x ->]].
  split; [reflexivity | now exists x].
Qed.

Lemma occurs_in_order_later pre fs s :
  occurs_in_order fs s -> occurs_in_order fs (pre ++ s).
Proof.
  intros H. destruct H as [s | p f fs rest H].
  - constructor.
  - rewrite app_assoc. now constructor.
Qed.

(** Every match of [findall] has the shape of a fragment, and the matches
    lie in the text in the order of the result. *)
Lemma findall_from_sound m :
  sound m ->
  forall n s k, List.length s <= n ->
    Forall (fun f => exists body, f = fragment body) (findall_from m k s)
    /\ occurs_in_order (findall_from m k s) s.
Proof.
  intros Hm. induction n as [|n IH]; intros s k Hn.
  - destruct s; [|simpl in Hn; lia]. split; constructor.
  - destruct s as [|c r]; [split; constructor|].
    simpl in Hn. cbn [findall_from].
    destruct k as [|k].
    + destruct (m (c :: r)) as [[f t]|] eqn:E.
      * destruct (Hm _ _ _ E) as [Hs [body Hf]].
        assert (Hr : r = tl f ++ t).
        { subst f. unfold fragment in Hs. simpl in Hs. simpl.
          now injection Hs. }
        assert (Hl : List.length f - 1 = List.length (tl f)).
        { subst f. simpl. lia. }
        rewrite Hl, Hr, findall_from_skip.
        destruct (IH t 0) as [F O].
        { subst r. rewrite length_app in Hn. lia. }
        split.
        -- constructor; [now exists body | exact F].
        -- rewrite <- Hr, Hs. now apply (occurs_next []).
      * destruct (IH r 0) as [F O]; [lia|].
        split; [exact F|]. now apply (occurs_in_order_later [c]).
    + destruct (IH r k) as [F O]; [lia|].
      split; [exact F|]. now apply (occurs_in_order_later [c]).
Qed.

Lemma lazy_close_flat body rest :
  brace_free body = true -> lookahead rest = true ->
  lazy_close (body ++ 125%N :: rest) = Some (body ++ [125%N], rest).
Proof.
  intros Hb Hl. induction body as [|c body IH]; simpl.
  - now rewrite Hl.
  - simpl in Hb. apply andb_prop in Hb as [Hc Hb].
    apply negb_true_iff, orb_false_iff in Hc as [_ Hc].
    rewrite Hc. simpl. now rewrite (IH Hb).
Qed.

Lemma plain_close_flat body rest :
  brace_free body = true ->
  plain_close (body ++ 125%N :: rest) = Some (body ++ [125%N], rest).
Proof.
  intros Hb. induction body as [|c body IH]; simpl; [reflexivity|].
  simpl in Hb. apply andb_prop in Hb as [Hc Hb].
  apply negb_true_iff, orb_false_iff in Hc as [Hc1 Hc2].
  rewrite Hc1, Hc2. now rewrite (IH Hb).
Qed.

Lemma isspace_not_brace c : isspace c = true -> (c =? 123)%N = false.
Proof.
  intros H. destruct (c =? 123)%N eqn:E; [|reflexivity].
  apply N.eqb_eq in E. subst c. discriminate.
Qed.

Lemma lstrip_blank w c s :
  blank w = true -> isspace c = false ->
  lstrip_by isspace (w ++ c :: s) = c :: s.
Proof.
  intros Hw Hc. induction w as [|x w IH]; simpl.
  - now rewrite Hc.
  - simpl in Hw. apply andb_prop in Hw as [Hx Hw]. rewrite Hx. now apply IH.
Qed.

Lemma tail_of_cons w w' b items :
  tail_of ((w, w', b) :: items)
  = w ++ 44%N :: w' ++ 123%N :: b ++ 125%N :: tail_of items.
Proof.
  unfold tail_of, fragment. simpl.
  repeat (rewrite <- app_assoc; simpl). reflexivity.
Qed.


(** Before the next opening brace, no match starts. *)
Lemma findall_from_blank m w s :
  (forall c r, (c =? 123)%N = false -> m (c :: r) = None) ->
  blank w = true ->
  findall_from m 0 (w ++ s) = findall_from m 0 s.
Proof.
  intros Hm Hw. induction w as [|x w IH]; [reflexivity|].
  simpl in Hw. apply andb_prop in Hw as [Hx Hw].
  cbn [app findall_from]. rewrite Hm by now apply isspace_not_brace.
  now apply IH.
Qed.

Lemma match_hike_none c r : (c =? 123)%N = false -> match_hike (c :: r) = None.
Proof. intros H. unfold match_hike. now rewrite H. Qed.

Lemma match_flat_none c r : (c =? 123)%N = false -> match_flat (c :: r) = None.
Proof. intros H. unfold match_flat. now rewrite H. Qed.


Lemma match_hike_fragment b rest :
  brace_free b = true -> lookahead rest = true ->
  match_hike (123%N :: b ++ 125%N :: rest) = Some (123%N :: b ++ [125%N], rest).
Proof.
  intros Hb Hl. unfold match_hike. cbn [N.eqb Pos.eqb].
  now rewrite (lazy_close_flat _ _ Hb Hl).
Qed.

Lemma match_flat_fragment b rest :
  brace_free b = true -> lookahead rest = true ->
  match_flat (123%N :: b ++ 125%N :: rest) = Some (123%N :: b ++ [125%N], rest).
Proof.
  intros Hb _. unfold match_flat. cbn [N.eqb Pos.eqb].
  now rewrite (plain_close_flat _ _ Hb).
Qed.




(** A sequence starts and ends with a brace: the clean-up of the content
    leaves it as it is. *)
Lemma sequence_shape first items : exists x, sequence first items = fragment x.
Proof.
  unfold sequence. revert first.
  induction items as [|[[w w'] b] items IH]; intros first.
  - exists first. unfold tail_of. simpl. now rewrite app_nil_r.
  - destruct (IH b) as [x Hx]. rewrite tail_of_cons.
    exists (first ++ 125%N :: w ++ 44%N :: w' ++ 123%N :: x).
    unfold fragment in *. simpl in Hx. injection Hx as Hx.
    rewrite <- app_assoc in Hx. simpl in Hx.
    simpl. repeat (rewrite <- app_assoc; simpl).
    now rewrite Hx.
Qed.


End ReFacts.

(** * Facts about the loaders *)

Module LoadFacts.
Import Py Track.

(** A text that starts with a brace decodes to a dict, one that starts
    with a bracket to a list. *)
Lemma loads_braced r v :
  Json.loads (123%N :: r) = Some v -> exists d, v = VDict d.
Proof.
  unfold Json.loads, Json.fuel_for.
  cbn [startswith N.eqb Pos.eqb Json.skip_ws Json.is_ws orb List.length
       Nat.mul Nat.add Json.scan_once].
  intros H.
  destruct (Json.skip_ws r) as [|c1 t]; [discriminate|].
  destruct (c1 =? 125)%N.
  - destruct (Json.skip_ws t); [|discriminate]. injection H as <-. eauto.
  - destruct (c1 =? 34)%N; [|discriminate].
    destruct (Json.object_pairs _ t) as [pairs u| |]; try discriminate.
    destruct (Json.skip_ws u); [|discriminate]. injection H as <-. eauto.
Qed.

Lemma loads_bracketed r v :
  Json.loads (91%N :: r) = Some v -> exists l, v = VList l.
Proof.
  unfold Json.loads, Json.fuel_for.
  cbn [startswith N.eqb Pos.eqb Json.skip_ws Json.is_ws orb List.length
       Nat.mul Nat.add Json.scan_once].
  intros H.
  destruct (Json.skip_ws r) as [|c1 t]; [discriminate|].
  destruct (c1 =? 93)%N.
  - destruct (Json.skip_ws t); [|discriminate]. injection H as <-. eauto.
  - destruct (Json.array_items _ (c1 :: t)) as [items u| |]; try discriminate.
    destruct (Json.skip_ws u); [|discriminate]. injection H as <-. eauto.
Qed.

Lemma decode_all_dicts bodies :
  Forall (fun v => exists d, v = VDict d) (decode_all (map fragment bodies)).
Proof.
  induction bodies as [|b bodies IH]; simpl; [constructor|].
  destruct (Json.loads (fragment b)) eqn:E; [|exact IH].
  constructor; [|exact IH]. now apply loads_braced in E.
Qed.

(** The body of the loop on a fragment: the fragment is not changed
    before it is decoded, and the branch that appends a closing brace is
    not taken. *)
Lemma endswith_fragment x : endswith 125 (fragment x) = true.
Proof.
  unfold endswith, fragment. simpl. rewrite rev_app_distr. reflexivity.
Qed.

Lemma body_fragment data log x :
  Loop.body (data, log) (fragment x) =
  match Json.loads (fragment x) with
  | Some v => (data ++ [v], log)
  | None => (data, log ++ [firstn 100 (fragment x)])
  end.
Proof.
  unfold Loop.body.
  replace (strip (fragment x)) with (fragment x)
    by (symmetry; apply PyFacts.strip_braced).
  rewrite endswith_fragment. reflexivity.
Qed.

Lemma run_fragments bodies data log :
  fold_left Loop.body (map fragment bodies) (data, log) =
  (data ++ decode_all (map fragment bodies),
   log ++ map (firstn 100) (malformed (map fragment bodies))).
Proof.
  revert data log. induction bodies as [|b bodies IH]; intros data log.
  - simpl. now rewrite !app_nil_r.
  - cbn [map fold_left]. rewrite body_fragment.
    cbn [decode_all malformed flat_map filter].
    destruct (Json.loads (fragment b)); rewrite IH;
      cbn [map]; now rewrite <- !app_assoc.
Qed.

Lemma run_of_fragments frags :
  Forall (fun f => exists body, f = fragment body) frags ->
  Loop.run frags = (decode_all frags, map (firstn 100) (malformed frags)).
Proof.
  intros H.
  assert (E : exists bodies, frags = map fragment bodies).
  { induction H as [|f frags [b ->] _ [bodies ->]].
    - now exists [].
    - now exists (b :: bodies). }
  destruct E as [bodies ->]. unfold Loop.run. now rewrite run_fragments.
Qed.

(** The three conditions of the filters. *)
Lemma keep3_total p : Map3.keep p = Ok (track_point p).
Proof.
  unfold Map3.keep, Map3.has_key, track_point, and_then, or_else, getitem,
    dict_has.
  destruct p; try reflexivity. simpl.
  destruct (dict_lookup d (lit "lat")) as [a|]; [|reflexivity].
  destruct (dict_lookup d (lit "lng")) as [b|]; [|reflexivity].
  simpl. destruct (ne_zero a); reflexivity.
Qed.


Lemma keep1_not_sentinel p : Map1.keep p = Ok true -> sentinel p = false.
Proof.
  unfold Map1.keep, sentinel, or_else, getitem.
  destruct p; try reflexivity.
  destruct (dict_lookup d (lit "lat")) as [a|]; [|reflexivity].
  simpl. destruct (ne_zero a); simpl.
  - destruct (dict_lookup d (lit "lng")); reflexivity.
  - destruct (dict_lookup d (lit "lng")) as [b|]; [|reflexivity].
    simpl. intros H. injection H as ->. reflexivity.
Qed.

Lemma keep2_dict d : Map2.keep (VDict d) = Ok (negb (sentinel (VDict d))).
Proof.
  unfold Map2.keep, sentinel, or_else, get.
  destruct (dict_lookup d (lit "lat")) as [a|]; simpl.
  - destruct (ne_zero a); simpl.
    + destruct (dict_lookup d (lit "lng")); reflexivity.
    + destruct (dict_lookup d (lit "lng")) as [b|]; simpl; [|reflexivity].
      destruct (ne_zero b); reflexivity.
  - reflexivity.
Qed.

Lemma track_point_not_sentinel p : track_point p = true -> sentinel p = false.
Proof.
  unfold track_point, sentinel. destruct p; try reflexivity.
  destruct (dict_lookup d (lit "lat")) as [a|]; [|reflexivity].
  destruct (dict_lookup d (lit "lng")) as [b|]; [|reflexivity].
  destruct (ne_zero a), (ne_zero b); simpl; congruence.
Qed.

(** What a comprehension with a condition returns. *)
Lemma filterM_subseq p l out :
  filterM p l = Ok out -> subseq out l /\ Forall (fun x => p x = Ok true) out.
Proof.
  revert out. induction l as [|x l IH]; intros out H; simpl in H.
  - injection H as <-. split; constructor.
  - destruct (p x) as [b|] eqn:E; [|discriminate]. simpl in H.
    destruct (filterM p l) as [r|]; [|discriminate]. simpl in H.
    destruct (IH r eq_refl) as [S F].
    injection H as <-. destruct b.
    + split; [now constructor | now constructor].
    + split; [now constructor | exact F].
Qed.

Lemma subseq_filter {A} (b : A -> bool) l : subseq (filter b l) l.
Proof.
  induction l as [|x l IH]; simpl; [constructor|].
  destruct (b x); now constructor.
Qed.

(** [load_data] of [map3.py] never raises. *)
Lemma load_data3_total content :
  exists out, snd (Map3.load_data content) = Ok out /\
    forall text, text = [91%N] ++
                   (if endswith 44 (strip content)
                    then drop_last (strip content) else strip content)
                   ++ [93%N] ->
      match Json.loads text with
      | Some data => exists items, data = VList items
                                   /\ out = filter track_point items
      | None => out = []
      end.
Proof.
  unfold Map3.load_data.
  set (text := [91%N] ++ _ ++ [93%N]).
  destruct (Json.loads text) as [data|] eqn:E.
  - simpl in text. destruct (loads_bracketed _ _ E) as [items ->].
    exists (filter track_point items). split.
    + simpl. apply PyFacts.filterM_total. intros x _. apply keep3_total.
    + intros ? ->. fold text. rewrite E. eauto.
  - exists []. split; [reflexivity|]. intros ? ->. fold text. now rewrite E.
Qed.

End LoadFacts.

(** * The parser *)

Module ParserProperties.
Import Py Track.


(** Every fragment that the patterns isolate ends with its closing brace:
    in the loop, the branch that would append one is never taken. *)
Lemma fragments_are_closed content f :
  In f (Re.findall_hike content) \/ In f (Re.findall_flat content) ->
  strip f = f /\ startswith 123 f = true /\ endswith 125 f = true.
Proof.
  intros H.
  assert (E : exists body, f = fragment body).
  { destruct H as [H|H];
      [pose proof (proj1 (ReFacts.findall_from_sound _
                     ReFacts.match_hike_sound _ content 0 (le_n _))) as F
      |pose proof (proj1 (ReFacts.findall_from_sound _
                     ReFacts.match_flat_sound _ content 0 (le_n _))) as F];
      rewrite Forall_forall in F; now apply F. }
  destruct E as [body ->].
  repeat split;
    [apply PyFacts.strip_braced | apply LoadFacts.endswith_fragment].
Qed.





(** Why the bodies must hold no brace: after an object that lost its
    closing brace in the middle of the text, the lazy pattern of [map.py]
    runs on to the closing brace of the next object, and both are lost. *)
Lemma hike_pattern_runs_over_next_object :
  let content := lit "{'lat':1,'lng':2},{'lat':3,{'lat':5,'lng':6}" in
  Re.findall_hike content
  = [lit "{'lat':1,'lng':2}"; lit "{'lat':3,{'lat':5,'lng':6}"]
  /\ Map1.load_hike_data content
     = ([lit "{'lat':3,{'lat':5,'lng':6}"],
        Ok [VDict [(lit "lat", VInt 1); (lit "lng", VInt 2)]])
  /\ Re.findall_flat content
     = [lit "{'lat':1,'lng':2}"; lit "{'lat':5,'lng':6}"].
Proof. repeat split; vm_compute; reflexivity. Qed.

Lemma fragments_bodies frags :
  Forall (fun f => exists body, f = fragment body) frags ->
  exists bodies, frags = map fragment bodies.
Proof.
  intros H. induction H as [|f frags [b ->] _ [bodies ->]].
  - now exists [].
  - now exists (b :: bodies).
Qed.

Lemma findall_hike_bodies content :
  exists bodies, Re.findall_hike content = map fragment bodies.
Proof.
  apply fragments_bodies.
  apply (ReFacts.findall_from_sound _ ReFacts.match_hike_sound _ content 0
           (le_n _)).
Qed.

Lemma findall_flat_bodies content :
  exists bodies, Re.findall_flat content = map fragment bodies.
Proof.
  apply fragments_bodies.
  apply (ReFacts.findall_from_sound _ ReFacts.match_flat_sound _ content 0
           (le_n _)).
Qed.

(** What the two loaders that work fragment by fragment compute. *)
Lemma load_hike_data_eq content :
  let frags := Re.findall_hike (rstrip_comma (strip content)) in
  Map1.load_hike_data content
  = (map (firstn 100) (malformed frags), filterM Map1.keep (decode_all frags)).
Proof.
  intros frags. unfold Map1.load_hike_data. fold frags.
  destruct (findall_hike_bodies (rstrip_comma (strip content))) as [bodies E].
  fold frags in E. rewrite E. unfold Loop.run.
  now rewrite LoadFacts.run_fragments.
Qed.

Lemma load_data2_eq content :
  let frags := Re.findall_flat (rstrip_comma (strip content)) in
  Map2.load_data content
  = (map (firstn 100) (malformed frags),
     Ok (filter (fun p => negb (sentinel p)) (decode_all frags))).
Proof.
  intros frags. unfold Map2.load_data. fold frags.
  destruct (findall_flat_bodies (rstrip_comma (strip content))) as [bodies E].
  fold frags in E. rewrite E. unfold Loop.run.
  rewrite LoadFacts.run_fragments. cbn [app]. f_equal.
  apply PyFacts.filterM_total. intros x Hx.
  pose proof (LoadFacts.decode_all_dicts bodies) as D.
  rewrite Forall_forall in D. destruct (D x Hx) as [d ->].
  apply LoadFacts.keep2_dict.
Qed.

Lemma load_data3_eq content :
  snd (Map3.load_data content)
  = Ok (match Json.loads (wrapped content) with
        | Some (VList items) => filter track_point items
        | _ => []
        end).
Proof.
  unfold Map3.load_data. fold (wrapped content).
  destruct (Json.loads (wrapped content)) as [data|] eqn:E; [|reflexivity].
  destruct (LoadFacts.loads_bracketed _ _ E) as [items ->].
  simpl. apply PyFacts.filterM_total. intros x _. apply LoadFacts.keep3_total.
Qed.

Lemma filter_Forall {A} (b : A -> bool) l :
  Forall (fun x => b x = true) (filter b l).
Proof.
  apply Forall_forall. intros x Hx. now apply filter_In in Hx.
Qed.

(** C4, as amended.  [load_data] of [map3.py] keeps a decoded candidate
    exactly when it is an object that has the keys [lat] and [lng] with
    values that are not both equal to zero; the values need not be
    numbers.  [load_data] of [map2.py] keeps a decoded object unless both
    keys are present with values equal to zero: an object without [lat] or
    without [lng] is kept.  With either, and with [load_hike_data] of
    [map.py] when it returns, no record with [lat] and [lng] both zero is
    in the result. *)
Theorem C4_filter_conditions (content : str) :
  (exists out,
      snd (Map3.load_data content) = Ok out
      /\ (forall items, Json.loads (wrapped content) = Some (VList items) ->
            out = filter track_point items)
      /\ Forall (fun p => track_point p = true /\ sentinel p = false) out)
  /\ (exists out,
        snd (Map2.load_data content) = Ok out
        /\ out = filter (fun p => negb (sentinel p))
                   (decode_all (Re.findall_flat (rstrip_comma (strip content))))
        /\ Forall (fun p => sentinel p = false) out)
  /\ (forall out,
        snd (Map1.load_hike_data content) = Ok out ->
        Forall (fun p => sentinel p = false) out).
Proof.
  repeat split.
  - eexists. split; [apply load_data3_eq|]. split.
    + intros items ->. reflexivity.
    + destruct (Json.loads (wrapped content)) as [[]|]; try constructor.
      eapply Forall_impl; [|apply filter_Forall].
      intros p Hp. split; [exact Hp|].
      now apply LoadFacts.track_point_not_sentinel.
  - eexists. rewrite load_data2_eq. split; [reflexivity|].
    split; [reflexivity|].
    eapply Forall_impl; [|apply filter_Forall].
    intros p Hp. now apply negb_true_iff in Hp.
  - intros out H. rewrite load_hike_data_eq in H. simpl in H.
    apply LoadFacts.filterM_subseq in H as [_ F].
    eapply Forall_impl; [|exact F].
    intros p Hp. now apply LoadFacts.keep1_not_sentinel.
Qed.

Lemma C4_filter_conditions_witness :
  let content := lit "{'lat':0,'lng':0},{'lat':0,'lng':7}" in
  let kept := [VDict [(lit "lat", VInt 0); (lit "lng", VInt 7)]] in
  snd (Map1.load_hike_data content) = Ok kept
  /\ Forall (fun p => sentinel p = false) kept.
Proof.
  intros content kept.
  assert (H : snd (Map1.load_hike_data content) = Ok kept)
    by (vm_compute; reflexivity).
  split; [exact H|].
  exact (proj2 (proj2 (C4_filter_conditions content)) kept H).
Defined.

(** C4, as stated, fails: [load_data] of [map3.py] keeps a record whose
    [lat] and [lng] are strings, and [load_data] of [map2.py] keeps a
    record that has neither [lat] nor [lng]. *)
Lemma C4_kept_without_numeric_coordinates :
  let p3 := VDict [(lit "lat", VStr (lit "x")); (lit "lng", VStr (lit "y"))] in
  let p2 := VDict [(lit "a", VInt 1)] in
  snd (Map3.load_data (lit "{'lat':'x','lng':'y'}")) = Ok [p3]
  /\ numeric_coordinates p3 = false
  /\ snd (Map2.load_data (lit "{'a':1}")) = Ok [p2]
  /\ getitem p2 (lit "lat") = Raise (KeyError (lit "lat"))
  /\ numeric_coordinates p2 = false.
Proof. repeat split; vm_compute; reflexivity. Qed.

(** C7: on a text that ends in an object without its closing brace, after
    a valid object, both patterns isolate the valid object only.  The
    truncated object is dropped without a diagnostic, and it is not
    closed, although closed it would decode to a record. *)
Theorem C7_truncated_object_dropped_silently :
  let content := lit "{'lat':1,'lng':2},{'lat':3,'lng':4," in
  let first := VDict [(lit "lat", VInt 1); (lit "lng", VInt 2)] in
  let second := VDict [(lit "lat", VInt 3); (lit "lng", VInt 4)] in
  Re.findall_hike (rstrip_comma (strip content)) = [lit "{'lat':1,'lng':2}"]
  /\ Re.findall_flat (rstrip_comma (strip content)) = [lit "{'lat':1,'lng':2}"]
  /\ Map1.load_hike_data content = ([], Ok [first])
  /\ Map2.load_data content = ([], Ok [first])
  /\ Json.loads (lit "{'lat':3,'lng':4" ++ [125%N]) = Some second.
Proof. repeat split; vm_compute; reflexivity. Qed.

Lemma subseq_refl {A} (l : list A) : subseq l l.
Proof. induction l; now constructor. Qed.

(** C8: what a loader returns is what the decoder produced, in the same
    order, with some records left out.  For the two loaders that work
    fragment by fragment, the fragments lie in the text in the order in
    which they are decoded. *)
Theorem C8_output_in_source_order (content : str) :
  (forall out,
      snd (Map1.load_hike_data content) = Ok out ->
      let text := rstrip_comma (strip content) in
      occurs_in_order (Re.findall_hike text) text
      /\ subseq out (decode_all (Re.findall_hike text)))
  /\ (exists out,
        snd (Map2.load_data content) = Ok out
        /\ let text := rstrip_comma (strip content) in
           occurs_in_order (Re.findall_flat text) text
           /\ subseq out (decode_all (Re.findall_flat text)))
  /\ (exists out,
        snd (Map3.load_data content) = Ok out
        /\ forall items, Json.loads (wrapped content) = Some (VList items) ->
             subseq out items).
Proof.
  repeat split.
  - apply (ReFacts.findall_from_sound _ ReFacts.match_hike_sound _ _ 0
             (le_n _)).
  - rewrite load_hike_data_eq in H. simpl in H.
    now apply LoadFacts.filterM_subseq in H.
  - eexists. rewrite load_data2_eq. split; [reflexivity|]. split.
    + apply (ReFacts.findall_from_sound _ ReFacts.match_flat_sound _ _ 0
               (le_n _)).
    + apply LoadFacts.subseq_filter.
  - eexists. split; [apply load_data3_eq|].
    intros items ->. apply LoadFacts.subseq_filter.
Qed.

Lemma C8_output_in_source_order_witness :
  let content := lit "{'lat':1,'lng':2},{'lat':0,'lng':0},{'lat':5,'lng':6}" in
  let p1 := VDict [(lit "lat", VInt 1); (lit "lng", VInt 2)] in
  let p3 := VDict [(lit "lat", VInt 5); (lit "lng", VInt 6)] in
  snd (Map1.load_hike_data content) = Ok [p1; p3]
  /\ subseq [p1; p3]
       (decode_all (Re.findall_hike (rstrip_comma (strip content)))).
Proof.
  intros content p1 p3.
  assert (H : snd (Map1.load_hike_data content) = Ok [p1; p3])
    by (vm_compute; reflexivity).
  split; [exact H|].
  exact (proj2 (proj1 (C8_output_in_source_order content) [p1; p3] H)).
Defined.

(** C9: the altitude of a record that has none.  [map.py] subscripts the
    record and raises [KeyError]; [map2.py] and [map3.py] read it with the
    default [0]. *)
Theorem C9_altitude_of_record_without_one :
  let content := lit "{'lat':1,'lng':2}" in
  let p := VDict [(lit "lat", VInt 1); (lit "lng", VInt 2)] in
  Map1.load_hike_data content = ([], Ok [p])
  /\ Map1.altitudes [p] = Raise (KeyError (lit "altitude"))
  /\ Map2.altitudes [p] = Ok [VInt 0]
  /\ Map3.altitudes [p] = Ok [VInt 0].
Proof. repeat split; vm_compute; reflexivity. Qed.

(** With the default, reading the altitudes of decoded objects never
    raises. *)
Lemma altitudes_default hike_data :
  Forall (fun p => is_dict p = true) hike_data ->
  Map3.altitudes hike_data
  = Ok (map (fun p => match p with
                      | VDict d =>
                          match dict_lookup d (lit "altitude") with
                          | Some v => v
                          | None => VInt 0
                          end
                      | _ => VNone
                      end) hike_data)
  /\ Map2.altitudes hike_data = Map3.altitudes hike_data.
Proof.
  intros H. split; [|reflexivity].
  induction H as [|p l Hp _ IH]; [reflexivity|].
  unfold Map3.altitudes in *. cbn [mapM map]. rewrite IH.
  destruct p; try discriminate. unfold get.
  destruct (dict_lookup d (lit "altitude")); reflexivity.
Qed.

End ParserProperties.

(** * The metrics *)

Module MetricsProperties.
Import Py Track.

Local Open Scope R_scope.

(** The quantity under the square roots of [haversine] lies between 0
    and 1. *)
Lemma half_angle_sin u : sin (u / 2) ^ 2 = (1 - cos u) / 2.
Proof.
  replace u with (2 * (u / 2)) at 2 by field.
  rewrite cos_2a_sin. field.
Qed.

Lemma haversine_a_bounds u v w :
  0 <= sin ((v - u) / 2) ^ 2 + cos u * cos v * sin (w / 2) ^ 2 <= 1.
Proof.
  rewrite half_angle_sin.
  assert (Hs : 0 <= sin (w / 2) ^ 2 <= 1).
  { pose proof (SIN_bound (w / 2)) as [A B]. split; nra. }
  pose proof (COS_bound (v - u)) as [A1 B1].
  pose proof (COS_bound (v + u)) as [A2 B2].
  rewrite cos_minus in *. rewrite cos_plus in A2, B2.
  set (s := sin (w / 2) ^ 2) in *.
  set (cu := cos u) in *. set (cv := cos v) in *.
  set (su := sin u) in *. set (sv := sin v) in *.
  destruct Hs as [Hs0 Hs1].
  replace ((1 - (cv * cu + sv * su)) / 2 + cu * cv * s)
    with ((1 - s) * ((1 - (cv * cu + sv * su)) / 2)
          + s * ((1 + (cv * cu - sv * su)) / 2)) by field.
  split.
  - apply Rplus_le_le_0_compat; apply Rmult_le_pos; lra.
  - assert (X1 : (1 - s) * ((1 - (cv * cu + sv * su)) / 2) <= (1 - s) * 1)
      by (apply Rmult_le_compat_l; lra).
    assert (X2 : s * ((1 + (cv * cu - sv * su)) / 2) <= s * 1)
      by (apply Rmult_le_compat_l; lra).
    lra.
Qed.

Lemma math_atan2_nonneg y x : 0 <= y -> 0 <= x -> 0 <= math_atan2 y x.
Proof.
  intros Hy Hx. unfold math_atan2.
  destruct (Rlt_dec 0 x) as [Px|Nx].
  - assert (Q : 0 <= y / x) by (apply Rmult_le_pos; [exact Hy|];
      left; now apply Rinv_0_lt_compat).
    destruct Q as [Q|Q].
    + left. rewrite <- atan_0. now apply atan_increasing.
    + rewrite <- Q, atan_0. lra.
  - destruct (Rlt_dec x 0); [lra|].
    pose proof PI_RGT_0.
    destruct (Rlt_dec 0 y); [lra|].
    destruct (Rlt_dec y 0); lra.
Qed.

Lemma radians_half_diff a b :
  math_radians (b - a) / 2 = (math_radians b - math_radians a) / 2.
Proof. unfold math_radians. field. Qed.

(** [haversine] returns, and what it returns. *)
Lemma haversine_eq lon1 lat1 lon2 lat2 :
  let a := sin (math_radians (lat2 - lat1) / 2) ^ 2 +
           cos (math_radians lat1) * cos (math_radians lat2) *
           sin (math_radians (lon2 - lon1) / 2) ^ 2 in
  0 <= a <= 1
  /\ Map3.haversine lon1 lat1 lon2 lat2
     = Ok (6371 * (2 * math_atan2 (sqrt a) (sqrt (1 - a)))).
Proof.
  intros a.
  assert (B : 0 <= a <= 1).
  { unfold a. rewrite radians_half_diff. apply haversine_a_bounds. }
  split; [exact B|].
  unfold Map3.haversine. fold a. unfold math_sqrt.
  destruct (Rlt_dec a 0); [lra|].
  destruct (Rlt_dec (1 - a) 0); [lra|]. reflexivity.
Qed.

Lemma haversine_returns_nonneg lon1 lat1 lon2 lat2 :
  exists d, Map3.haversine lon1 lat1 lon2 lat2 = Ok d /\ 0 <= d.
Proof.
  destruct (haversine_eq lon1 lat1 lon2 lat2) as [[A0 A1] E].
  eexists. split; [exact E|].
  apply Rmult_le_pos; [lra|]. apply Rmult_le_pos; [lra|].
  apply math_atan2_nonneg; apply sqrt_pos.
Qed.

Lemma haversine_same_point lon lat : Map3.haversine lon lat lon lat = Ok 0.
Proof.
  rewrite (proj2 (haversine_eq lon lat lon lat)).
  replace (math_radians (lat - lat) / 2) with 0
    by (unfold math_radians; field).
  replace (math_radians (lon - lon) / 2) with 0
    by (unfold math_radians; field).
  rewrite sin_0.
  replace (0 ^ 2 + cos (math_radians lat) * cos (math_radians lat) * 0 ^ 2)
    with 0 by ring.
  rewrite Rminus_0_r, sqrt_0, sqrt_1.
  unfold math_atan2. destruct (Rlt_dec 0 1); [|lra].
  replace (0 / 1) with 0 by field. rewrite atan_0. f_equal. ring.
Qed.


Lemma hav_ok a b :
  Map3.haversine (fst (fst a)) (snd (fst a)) (fst (fst b)) (snd (fst b))
  = Ok (hav a b)
  /\ 0 <= hav a b.
Proof.
  unfold hav.
  destruct (haversine_returns_nonneg
              (fst (fst a)) (snd (fst a)) (fst (fst b)) (snd (fst b)))
    as [d [E P]].
  rewrite E. now split.
Qed.

(** One turn of the loop on two measurable records. *)
Lemma turn_measurable prev curr sp sc d :
  measurable prev sp -> measurable curr sc ->
  Map3.turn prev curr d
  = Ok (d + hav sp sc, hav sp sc / IZR (elapsed sp sc) * 3600).
Proof.
  destruct sp as [[x1 y1] t1], sc as [[x2 y2] t2].
  intros [(vx1 & vy1 & G1 & G2 & F1 & F2) T1]
         [(vx2 & vy2 & G3 & G4 & F3 & F4) T2].
  unfold Map3.turn. rewrite G1, G2, G3, G4. cbn [bind].
  unfold Map3.haversine_values. rewrite F4, F2, F3, F1. cbn [bind].
  pose proof (hav_ok (x1, y1, t1) (x2, y2, t2)) as [E _]. simpl in E.
  rewrite E. cbn [bind]. rewrite T2, T1. cbn [bind].
  unfold truediv, elapsed. simpl snd.
  destruct (Req_dec_T (IZR (Z.max (t2 - t1) 1)) 0) as [Z0|NZ].
  - apply eq_IZR_R0 in Z0. lia.
  - reflexivity.
Qed.

Lemma turns_measurable rest samples :
  Forall2 measurable rest samples ->
  forall prev sp distances speeds,
    measurable prev sp ->
    Map3.turns prev rest distances speeds
    = Ok (distances ++ cumulative (last distances 0) sp samples,
          speeds ++ rates sp samples).
Proof.
  induction 1 as [|curr sc rest samples Hc _ IH];
    intros prev sp distances speeds Hp.
  - simpl. now rewrite !app_nil_r.
  - cbn [Map3.turns]. rewrite (turn_measurable _ _ _ _ _ Hp Hc).
    cbn [bind fst snd]. rewrite (IH _ _ _ _ Hc).
    rewrite last_last. cbn [cumulative rates].
    now rewrite <- !app_assoc.
Qed.

(** Conversely, a turn that returns has read two measurable records. *)
Lemma turn_returns prev curr d r :
  Map3.turn prev curr d = Ok r ->
  exists sp sc, measurable prev sp /\ measurable curr sc.
Proof.
  unfold Map3.turn, Map3.haversine_values. intros H.
  destruct (getitem prev (lit "lng")) as [vx1|] eqn:G1; [|discriminate].
  destruct (getitem prev (lit "lat")) as [vy1|] eqn:G2; [|discriminate].
  destruct (getitem curr (lit "lng")) as [vx2|] eqn:G3; [|discriminate].
  destruct (getitem curr (lit "lat")) as [vy2|] eqn:G4; [|discriminate].
  cbn [bind] in H.
  destruct (to_float vy2) as [y2|] eqn:F4; [|discriminate].
  destruct (to_float vy1) as [y1|] eqn:F2; [|discriminate].
  destruct (to_float vx2) as [x2|] eqn:F3; [|discriminate].
  destruct (to_float vx1) as [x1|] eqn:F1; [|discriminate].
  cbn [bind] in H.
  destruct (Map3.haversine x1 y1 x2 y2); [|discriminate]. cbn [bind] in H.
  destruct (bind (getitem curr (lit "timestamp")) Map3.time_to_seconds)
    as [tc|] eqn:T2; [|discriminate].
  destruct (bind (getitem prev (lit "timestamp")) Map3.time_to_seconds)
    as [tp|] eqn:T1; [|discriminate].
  exists (x1, y1, tp), (x2, y2, tc).
  split; (split; [eauto 10 | assumption]).
Qed.

Lemma turns_returns rest :
  forall prev distances speeds r,
    rest <> [] ->
    Map3.turns prev rest distances speeds = Ok r ->
    exists sp samples,
      measurable prev sp /\ Forall2 measurable rest samples.
Proof.
  induction rest as [|curr rest IH]; intros prev distances speeds r Hne H;
    [congruence|].
  cbn [Map3.turns] in H.
  destruct (Map3.turn prev curr (last distances 0)) as [ds|] eqn:E;
    [|discriminate].
  cbn [bind] in H.
  destruct (turn_returns _ _ _ _ E) as (sp & sc & Hp & Hc).
  destruct rest as [|next rest].
  - exists sp, [sc]. split; [exact Hp|]. now repeat constructor.
  - assert (Hne' : next :: rest <> []) by discriminate.
    destruct (IH _ _ _ _ Hne' H) as (sc' & samples & Hc' & Hrest).
    exists sp, (sc' :: samples). split; [exact Hp|]. now constructor.
Qed.

(** The loop returns on a track of two records or more exactly when all
    its records are measurable. *)
Lemma metrics_returns_iff p q hike :
  (exists r, Map3.metrics (p :: q :: hike) = Ok r)
  <-> (exists samples, Forall2 measurable (p :: q :: hike) samples).
Proof.
  split.
  - intros [r H]. unfold Map3.metrics in H.
    assert (Hne : q :: hike <> []) by discriminate.
    destruct (turns_returns _ _ _ _ _ Hne H) as (sp & samples & Hp & Hrest).
    exists (sp :: samples). now constructor.
  - intros [samples H]. inversion H as [|? s ? srest Hp Hrest]; subst.
    eexists. unfold Map3.metrics.
    now rewrite (turns_measurable _ _ Hrest _ _ _ _ Hp).
Qed.








(** Two records at the same position: the turn adds nothing to the
    distance. *)
Lemma duplicate_position_adds_nothing prev curr x y t1 t2 d :
  measurable prev (x, y, t1) -> measurable curr (x, y, t2) ->
  exists speed, Map3.turn prev curr d = Ok (d, speed).
Proof.
  intros Hp Hc. rewrite (turn_measurable _ _ _ _ d Hp Hc).
  unfold hav. cbn [fst snd]. rewrite (haversine_same_point x y).
  eexists. f_equal. f_equal. lra.
Qed.





Lemma int_digits_all ds :
  forallb is_digit ds = true ->
  forall acc b, (b = true \/ ds <> []) ->
    int_digits acc b ds
    = Some (fold_left (fun a d => (10 * a + (Z.of_N d - 48))%Z) ds acc).
Proof.
  induction ds as [|c ds IH]; intros H acc b Hb.
  - destruct Hb as [->|Hb]; [reflexivity | congruence].
  - simpl in H. apply andb_prop in H as [Hc H].
    cbn [int_digits fold_left]. rewrite Hc. apply IH; [exact H | now left].
Qed.

Lemma digit_not_space c : is_digit c = true -> isspace c = false.
Proof.
  unfold is_digit, isspace. intros H. apply andb_prop in H as [H1 H2].
  apply N.leb_le in H1, H2.
  repeat match goal with
    | |- context [(?a <=? ?b)%N] => destruct (N.leb_spec a b)
    | |- context [(?a =? ?b)%N] => destruct (N.eqb_spec a b)
    end; try reflexivity; lia.
Qed.

Lemma digit_not_colon c : is_digit c = true -> (c =? 58)%N = false.
Proof.
  unfold is_digit. intros H. apply andb_prop in H as [H1 H2].
  apply N.leb_le in H1, H2. apply N.eqb_neq. lia.
Qed.

(** A text that starts and ends with a digit is left as it is by
    [strip]. *)
Lemma strip_between_digits c s d :
  is_digit c = true -> is_digit d = true ->
  strip (c :: s ++ [d]) = c :: s ++ [d].
Proof.
  intros Hc Hd. unfold strip.
  rewrite PyFacts.lstrip_by_keep by now apply digit_not_space.
  change (c :: s ++ [d]) with ((c :: s) ++ [d]).
  apply PyFacts.rstrip_by_keep. now apply digit_not_space.
Qed.

Lemma digits_ends ds :
  digits ds = true ->
  forallb is_digit ds = true
  /\ (exists c, ds = [c] /\ is_digit c = true)
     \/ forallb is_digit ds = true
        /\ exists c s d, ds = c :: s ++ [d]
                         /\ is_digit c = true /\ is_digit d = true.
Proof.
  unfold digits. destruct ds as [|c r]; [discriminate|]. intros H.
  pose proof H as H0. simpl in H. apply andb_prop in H as [Hc Hr].
  destruct r as [|x r]; [left; eauto|right].
  split; [exact H0|].
  destruct (exists_last (l := x :: r)) as (s & d & E); [discriminate|].
  exists c, s, d. rewrite E in *. repeat split; try assumption.
  rewrite forallb_app in Hr. apply andb_prop in Hr as [_ Hd].
  simpl in Hd. now rewrite andb_true_r in Hd.
Qed.

Lemma strip_digits ds : digits ds = true -> strip ds = ds.
Proof.
  intros H. destruct (digits_ends ds H) as [[_ [c [-> Hc]]]|[_ E]].
  - unfold strip. rewrite PyFacts.lstrip_by_keep by now apply digit_not_space.
    apply (PyFacts.rstrip_by_keep isspace c []). now apply digit_not_space.
  - destruct E as (c & s & d & -> & Hc & Hd). now apply strip_between_digits.
Qed.

Lemma int_of_str_digits ds :
  digits ds = true -> int_of_str ds = Ok (decimal ds).
Proof.
  intros H. unfold int_of_str. rewrite (strip_digits ds H).
  unfold digits in H. destruct ds as [|c r]; [discriminate|].
  pose proof H as H0. simpl in H. apply andb_prop in H as [Hc _].
  assert (N1 : (c =? 43)%N = false).
  { unfold is_digit in Hc. apply andb_prop in Hc as [H1 H2].
    apply N.leb_le in H1, H2. apply N.eqb_neq. lia. }
  assert (N2 : (c =? 45)%N = false).
  { unfold is_digit in Hc. apply andb_prop in Hc as [H1 H2].
    apply N.leb_le in H1, H2. apply N.eqb_neq. lia. }
  rewrite N1, N2.
  rewrite (int_digits_all (c :: r) H0 0%Z false) by (right; discriminate).
  f_equal. unfold decimal. lia.
Qed.

Lemma split_colon_aux_last cur a :
  forallb is_digit a = true -> split_colon_aux cur a = [rev cur ++ a].
Proof.
  revert cur. induction a as [|c a IH]; intros cur H; simpl.
  - now rewrite app_nil_r.
  - simpl in H. apply andb_prop in H as [Hc H].
    rewrite (digit_not_colon c Hc), (IH _ H). simpl.
    now rewrite <- app_assoc.
Qed.

Lemma split_colon_aux_next cur a r :
  forallb is_digit a = true ->
  split_colon_aux cur (a ++ 58%N :: r) = (rev cur ++ a) :: split_colon_aux [] r.
Proof.
  revert cur. induction a as [|c a IH]; intros cur H; simpl.
  - now rewrite app_nil_r.
  - simpl in H. apply andb_prop in H as [Hc H].
    rewrite (digit_not_colon c Hc), (IH _ H). simpl.
    now rewrite <- app_assoc.
Qed.

Lemma digits_all ds : digits ds = true -> forallb is_digit ds = true.
Proof. unfold digits. now destruct ds. Qed.

(** A text made of components of digits joined by colons is left as it
    is by [strip]. *)
Lemma strip_clock a rest :
  digits a = true ->
  (rest = [] \/ exists r b, rest = 58%N :: r ++ b /\ digits b = true) ->
  strip (a ++ rest) = a ++ rest.
Proof.
  intros Ha [->|(r & b & -> & Hb)].
  - rewrite app_nil_r. now apply strip_digits.
  - assert (Hc : exists c s, a = c :: s /\ is_digit c = true).
    { unfold digits in Ha. destruct a as [|c s]; [discriminate|].
      simpl in Ha. apply andb_prop in Ha as [Hc _]. eauto. }
    assert (Hd : exists s d, b = s ++ [d] /\ is_digit d = true).
    { destruct (digits_ends b Hb) as [[_ [c [-> Hc']]]|[_ E]].
      - now exists [], c.
      - destruct E as (c & s & d & -> & _ & Hd). now exists (c :: s), d. }
    destruct Hc as (c & s & -> & Hc). destruct Hd as (s' & d & -> & Hd).
    replace ((c :: s) ++ 58%N :: r ++ s' ++ [d])
      with (c :: (s ++ 58%N :: r ++ s') ++ [d])
      by (simpl; repeat (rewrite <- app_assoc; simpl); reflexivity).
    now apply strip_between_digits.
Qed.

(** C2, as amended: on a timestamp whose components, split at the
    colons, all convert with [int], [time_to_seconds] returns the seconds
    when there is one component, minutes * 60 + seconds when there are
    two, hours * 3600 + minutes * 60 + seconds when there are three.  So
    it does on the clock times [MM:SS] and [HH:MM:SS] written with
    digits. *)
Theorem C2_time_to_seconds_components (t : str) :
  (forall s zs,
      split_colon (strip t) = [s] -> int_of_str s = Ok zs ->
      Map3.time_to_seconds (VStr t) = Ok zs)
  /\ (forall m s zm zs,
        split_colon (strip t) = [m; s] ->
        int_of_str m = Ok zm -> int_of_str s = Ok zs ->
        Map3.time_to_seconds (VStr t) = Ok (zm * 60 + zs)%Z)
  /\ (forall h m s zh zm zs,
        split_colon (strip t) = [h; m; s] ->
        int_of_str h = Ok zh -> int_of_str m = Ok zm -> int_of_str s = Ok zs ->
        Map3.time_to_seconds (VStr t) = Ok (zh * 3600 + zm * 60 + zs)%Z)
  /\ (forall m s,
        digits m = true -> digits s = true -> t = m ++ 58%N :: s ->
        Map3.time_to_seconds (VStr t) = Ok (decimal m * 60 + decimal s)%Z)
  /\ (forall h m s,
        digits h = true -> digits m = true -> digits s = true ->
        t = h ++ 58%N :: m ++ 58%N :: s ->
        Map3.time_to_seconds (VStr t)
        = Ok (decimal h * 3600 + decimal m * 60 + decimal s)%Z).
Proof.
  unfold Map3.time_to_seconds.
  split; [|split; [|split; [|split]]].
  - intros s zs -> Hs. cbn [mapM]. rewrite Hs. reflexivity.
  - intros m s zm zs -> Hm Hs. cbn [mapM]. rewrite Hm, Hs. reflexivity.
  - intros h m s zh zm zs -> Hh Hm Hs. cbn [mapM].
    rewrite Hh, Hm, Hs. reflexivity.
  - intros m s Hm Hs ->.
    rewrite (strip_clock m (58%N :: s) Hm)
      by (right; exists [], s; now split).
    unfold split_colon.
    rewrite (split_colon_aux_next [] m s (digits_all _ Hm)).
    rewrite (split_colon_aux_last [] s (digits_all _ Hs)).
    cbn [rev app mapM].
    rewrite (int_of_str_digits m Hm), (int_of_str_digits s Hs). reflexivity.
  - intros h m s Hh Hm Hs ->.
    rewrite (strip_clock h (58%N :: m ++ 58%N :: s) Hh).
    2:{ right. exists (m ++ [58%N]), s. split; [|exact Hs].
        now rewrite <- app_assoc. }
    unfold split_colon.
    rewrite (split_colon_aux_next [] h _ (digits_all _ Hh)).
    rewrite (split_colon_aux_next [] m s (digits_all _ Hm)).
    rewrite (split_colon_aux_last [] s (digits_all _ Hs)).
    cbn [rev app mapM].
    rewrite (int_of_str_digits h Hh), (int_of_str_digits m Hm),
      (int_of_str_digits s Hs).
    reflexivity.
Qed.

Lemma C2_time_to_seconds_components_witness :
  split_colon (strip (lit "05:30")) = [lit "05"; lit "30"]
  /\ int_of_str (lit "05") = Ok 5%Z
  /\ int_of_str (lit "30") = Ok 30%Z
  /\ Map3.time_to_seconds (VStr (lit "05:30")) = Ok 330%Z.
Proof.
  assert (H1 : split_colon (strip (lit "05:30")) = [lit "05"; lit "30"])
    by (vm_compute; reflexivity).
  assert (H2 : int_of_str (lit "05") = Ok 5%Z) by (vm_compute; reflexivity).
  assert (H3 : int_of_str (lit "30") = Ok 30%Z) by (vm_compute; reflexivity).
  split; [exact H1|]. split; [exact H2|]. split; [exact H3|].
  exact (proj1 (proj2 (C2_time_to_seconds_components (lit "05:30")))
           (lit "05") (lit "30") 5%Z 30%Z H1 H2 H3).
Defined.

(** C2, as stated, fails: a timestamp of one component is read as
    seconds, not as zero, and a component that is not a number, or a
    fourth component, raises [ValueError]. *)
Lemma C2_other_forms_are_not_zero :
  Map3.time_to_seconds (VStr (lit "45")) = Ok 45%Z
  /\ Map3.time_to_seconds (VStr (lit "bad")) = Raise ValueError
  /\ Map3.time_to_seconds (VStr (lit "1:2:3:4")) = Raise ValueError
  /\ Map3.time_to_seconds (VStr (lit "45")) <> Ok 0%Z.
Proof.
  repeat split; try (vm_compute; reflexivity).
  vm_compute. discriminate.
Qed.

(** The three timestamps of P6. *)
Lemma time_to_seconds_examples :
  Map3.time_to_seconds (VStr (lit "05:30")) = Ok 330%Z
  /\ Map3.time_to_seconds (VStr (lit "01:05:30")) = Ok 3930%Z
  /\ Map3.time_to_seconds (VStr (lit "bad")) = Raise ValueError.
Proof. repeat split; vm_compute; reflexivity. Qed.

Lemma fold_min_repeat x n : fold_left Rmin (repeat x n) x = x.
Proof.
  induction n as [|n IH]; [reflexivity|].
  simpl. rewrite Rmin_left by lra. exact IH.
Qed.

Lemma fold_max_repeat x n : fold_left Rmax (repeat x n) x = x.
Proof.
  induction n as [|n IH]; [reflexivity|].
  simpl. rewrite Rmax_left by lra. exact IH.
Qed.

(** C6: on a track whose altitudes are all equal, [min_alt] and [max_alt]
    are equal and [get_color] divides by zero, whatever the altitude it is
    asked about. *)
Theorem C6_get_color_on_flat_track (x : R) (n : nat) (alt : R) :
  let altitudes := repeat x (S n) in
  exists min_alt max_alt,
    Map1.min_of altitudes = Ok min_alt
    /\ Map1.max_of altitudes = Ok max_alt
    /\ min_alt = max_alt
    /\ Map1.get_color min_alt max_alt alt = Raise ZeroDivisionError.
Proof.
  intros altitudes. exists x, x.
  split; [simpl; now rewrite fold_min_repeat|].
  split; [simpl; now rewrite fold_max_repeat|].
  split; [reflexivity|].
  unfold Map1.get_color, truediv.
  destruct (Req_dec_T (x - x) 0) as [_|N]; [reflexivity | lra].
Qed.

End MetricsProperties.

(** * Timestamps: [times] of [map.py] and [time_to_seconds] of [map3.py] *)

Module TimeProperties.
Import Py Track More.

(** [time_to_seconds] on clock times written with digits. *)
Lemma seconds_of_two m s :
  digits m = true -> digits s = true ->
  Map3.time_to_seconds (VStr (m ++ 58%N :: s))
  = Ok (decimal m * 60 + decimal s)%Z.
Proof.
  intros Hm Hs. unfold Map3.time_to_seconds.
  rewrite (MetricsProperties.strip_clock m (58%N :: s) Hm)
    by (right; exists [], s; now split).
  unfold split_colon.
  rewrite (MetricsProperties.split_colon_aux_next [] m s
             (MetricsProperties.digits_all _ Hm)).
  rewrite (MetricsProperties.split_colon_aux_last [] s
             (MetricsProperties.digits_all _ Hs)).
  cbn [rev app mapM].
  rewrite (MetricsProperties.int_of_str_digits m Hm),
    (MetricsProperties.int_of_str_digits s Hs).
  reflexivity.
Qed.

Lemma seconds_of_three h m s :
  digits h = true -> digits m = true -> digits s = true ->
  Map3.time_to_seconds (VStr (h ++ 58%N :: m ++ 58%N :: s))
  = Ok (decimal h * 3600 + decimal m * 60 + decimal s)%Z.
Proof.
  intros Hh Hm Hs. unfold Map3.time_to_seconds.
  rewrite (MetricsProperties.strip_clock h (58%N :: m ++ 58%N :: s) Hh).
  2:{ right. exists (m ++ [58%N]), s. split; [|exact Hs].
      now rewrite <- app_assoc. }
  unfold split_colon.
  rewrite (MetricsProperties.split_colon_aux_next [] h _
             (MetricsProperties.digits_all _ Hh)).
  rewrite (MetricsProperties.split_colon_aux_next [] m s
             (MetricsProperties.digits_all _ Hm)).
  rewrite (MetricsProperties.split_colon_aux_last [] s
             (MetricsProperties.digits_all _ Hs)).
  cbn [rev app mapM].
  rewrite (MetricsProperties.int_of_str_digits h Hh),
    (MetricsProperties.int_of_str_digits m Hm),
    (MetricsProperties.int_of_str_digits s Hs).
  reflexivity.
Qed.

Lemma is_digit_bounds c : is_digit c = true -> (48 <= Z.of_N c <= 57)%Z.
Proof.
  unfold is_digit. intros H. apply andb_prop in H as [H1 H2].
  apply N.leb_le in H1, H2. lia.
Qed.

Lemma between_bounds lo hi c :
  Map1.between lo hi c = true -> (lo <= c <= hi)%N.
Proof.
  unfold Map1.between. intros H. apply andb_prop in H as [H1 H2].
  apply N.leb_le in H1, H2. lia.
Qed.

Lemma bounds_is_digit c : (48 <= Z.of_N c <= 57)%Z -> is_digit c = true.
Proof.
  intros H. unfold is_digit. apply andb_true_intro.
  split; apply N.leb_le; lia.
Qed.

Lemma one_digit_field s v r :
  Map1.one_digit s = Some (v, r) -> field 10 s v r.
Proof.
  unfold Map1.one_digit. destruct s as [|a s']; [discriminate|].
  destruct (is_digit a) eqn:Ha; [|discriminate].
  intros H. injection H as <- <-. exists [a].
  pose proof (is_digit_bounds a Ha) as B.
  assert (V : decimal [a] = Map1.digit_value a)
    by (unfold decimal, Map1.digit_value; simpl; lia).
  split; [reflexivity|]. split; [simpl; now rewrite Ha|].
  split; [exact V|]. unfold Map1.digit_value. lia.
Qed.

Lemma two_digits_field p1 p2 bound s v r :
  (forall a b, p1 a = true -> p2 b = true ->
     (48 <= Z.of_N a <= 57)%Z /\ (48 <= Z.of_N b <= 57)%Z
     /\ (10 * (Z.of_N a - 48) + (Z.of_N b - 48) < bound)%Z) ->
  Map1.two_digits p1 p2 s = Some (v, r) -> field bound s v r.
Proof.
  intros Hp. unfold Map1.two_digits.
  destruct s as [|a [|b s']]; try discriminate.
  destruct (p1 a && p2 b) eqn:E; [|discriminate].
  apply andb_prop in E as [Ea Eb].
  destruct (Hp a b Ea Eb) as (Ba & Bb & Bv).
  intros H. injection H as <- <-. exists [a; b].
  assert (V : decimal [a; b]
              = (10 * Map1.digit_value a + Map1.digit_value b)%Z)
    by (unfold decimal, Map1.digit_value; simpl; lia).
  split; [reflexivity|].
  split; [simpl; now rewrite (bounds_is_digit a Ba), (bounds_is_digit b Bb)|].
  split; [exact V|].
  assert (Da : Map1.digit_value a = (Z.of_N a - 48)%Z) by reflexivity.
  assert (Db : Map1.digit_value b = (Z.of_N b - 48)%Z) by reflexivity.
  change (0 <= 10 * Map1.digit_value a + Map1.digit_value b < bound)%Z.
  rewrite Da, Db. lia.
Qed.

Lemma field_weaken b b' s v r : (b <= b')%Z -> field b s v r -> field b' s v r.
Proof.
  intros Hb (ds & E & D & V & B). exists ds. repeat split; try assumption; lia.
Qed.

Lemma group_sound {A} alternatives (k : Z -> str -> option A) s x :
  Map1.group alternatives k s = Some x ->
  exists alt v r, In alt alternatives /\ alt s = Some (v, r) /\ k v r = Some x.
Proof.
  induction alternatives as [|alt others IH]; [discriminate|].
  cbn [Map1.group]. intros H.
  destruct (alt s) as [[v r]|] eqn:E.
  - destruct (k v r) as [y|] eqn:K.
    + injection H as <-. exists alt, v, r. repeat split; auto. now left.
    + destruct (IH H) as (a & v' & r' & I & E' & K').
      exists a, v', r'. repeat split; auto. now right.
  - destruct (IH H) as (a & v' & r' & I & E' & K').
    exists a, v', r'. repeat split; auto. now right.
Qed.

Lemma hour_field alt s v r :
  In alt Map1.hour_alternatives -> alt s = Some (v, r) -> field 24 s v r.
Proof.
  intros [<-|[<-|[<-|[]]]] H.
  - eapply two_digits_field; [|exact H]. intros a b Ha Hb.
    apply N.eqb_eq in Ha. subst a. apply between_bounds in Hb. lia.
  - eapply two_digits_field; [|exact H]. intros a b Ha Hb.
    apply between_bounds in Ha. apply is_digit_bounds in Hb. lia.
  - eapply field_weaken; [|now apply one_digit_field]. lia.
Qed.

Lemma minute_field alt s v r :
  In alt Map1.minute_alternatives -> alt s = Some (v, r) -> field 60 s v r.
Proof.
  intros [<-|[<-|[]]] H.
  - eapply two_digits_field; [|exact H]. intros a b Ha Hb.
    apply between_bounds in Ha. apply is_digit_bounds in Hb. lia.
  - eapply field_weaken; [|now apply one_digit_field]. lia.
Qed.

Lemma second_field alt s v r :
  In alt Map1.second_alternatives -> alt s = Some (v, r) -> field 62 s v r.
Proof.
  intros [<-|[<-|[<-|[]]]] H.
  - eapply two_digits_field; [|exact H]. intros a b Ha Hb.
    apply N.eqb_eq in Ha. subst a. apply between_bounds in Hb. lia.
  - eapply two_digits_field; [|exact H]. intros a b Ha Hb.
    apply between_bounds in Ha. apply is_digit_bounds in Hb. lia.
  - eapply field_weaken; [|now apply one_digit_field]. lia.
Qed.

Lemma colon_sound {A} (k : str -> option A) s x :
  Map1.colon k s = Some x -> exists r, s = 58%N :: r /\ k r = Some x.
Proof.
  unfold Map1.colon. destruct s as [|c r]; [discriminate|].
  destruct (c =? 58)%N eqn:E; [|discriminate].
  apply N.eqb_eq in E. subst c. eauto.
Qed.

(** The texts that the two patterns match. *)
Lemma match_MS_sound s m sec r :
  Map1.match_MS s = Some (m, sec, r) ->
  exists ms ss,
    s = ms ++ 58%N :: ss ++ r
    /\ digits ms = true /\ decimal ms = m /\ (0 <= m < 60)%Z
    /\ digits ss = true /\ decimal ss = sec /\ (0 <= sec < 62)%Z.
Proof.
  unfold Map1.match_MS. intros H.
  apply group_sound in H as (alt & v & r1 & I & E & K).
  apply (minute_field _ _ _ _ I) in E as (ms & -> & Dm & Vm & Bm).
  apply colon_sound in K as (r2 & -> & K).
  apply group_sound in K as (alt2 & v2 & r3 & I2 & E2 & K2).
  apply (second_field _ _ _ _ I2) in E2 as (ss & -> & Ds & Vs & Bs).
  injection K2 as <- <- <-. exists ms, ss. repeat split; auto; lia.
Qed.

Lemma match_HMS_sound s h m sec r :
  Map1.match_HMS s = Some (h, m, sec, r) ->
  exists hs ms ss,
    s = hs ++ 58%N :: ms ++ 58%N :: ss ++ r
    /\ digits hs = true /\ decimal hs = h /\ (0 <= h < 24)%Z
    /\ digits ms = true /\ decimal ms = m /\ (0 <= m < 60)%Z
    /\ digits ss = true /\ decimal ss = sec /\ (0 <= sec < 62)%Z.
Proof.
  unfold Map1.match_HMS. intros H.
  apply group_sound in H as (alt & v & r1 & I & E & K).
  apply (hour_field _ _ _ _ I) in E as (hs & -> & Dh & Vh & Bh).
  apply colon_sound in K as (r2 & -> & K).
  apply group_sound in K as (alt1 & v1 & r3 & I1 & E1 & K1).
  apply (minute_field _ _ _ _ I1) in E1 as (ms & -> & Dm & Vm & Bm).
  apply colon_sound in K1 as (r4 & -> & K1).
  apply group_sound in K1 as (alt2 & v2 & r5 & I2 & E2 & K2).
  apply (second_field _ _ _ _ I2) in E2 as (ss & -> & Ds & Vs & Bs).
  injection K2 as <- <- <- <-. exists hs, ms, ss. repeat split; auto; lia.
Qed.

Lemma strptime_HMS_sound s h m sec :
  Map1.strptime_HMS s = Ok (h, m, sec) ->
  exists hs ms ss,
    s = hs ++ 58%N :: ms ++ 58%N :: ss
    /\ digits hs = true /\ decimal hs = h /\ (0 <= h < 24)%Z
    /\ digits ms = true /\ decimal ms = m /\ (0 <= m < 60)%Z
    /\ digits ss = true /\ decimal ss = sec /\ (0 <= sec < 60)%Z.
Proof.
  unfold Map1.strptime_HMS, Map1.datetime. intros H.
  destruct (Map1.match_HMS s) as [[[[h' m'] s'] r]|] eqn:E; [|discriminate].
  destruct r; [|discriminate].
  destruct (s' <=? 59)%Z eqn:B; [|discriminate].
  injection H as <- <- <-. apply Z.leb_le in B.
  apply match_HMS_sound in E
    as (hs & ms & ss & -> & Dh & Vh & Bh & Dm & Vm & Bm & Ds & Vs & Bs).
  exists hs, ms, ss. rewrite app_nil_r. repeat split; auto; lia.
Qed.

Lemma strptime_MS_sound s h m sec :
  Map1.strptime_MS s = Ok (h, m, sec) ->
  h = 0%Z
  /\ exists ms ss,
       s = ms ++ 58%N :: ss
       /\ digits ms = true /\ decimal ms = m /\ (0 <= m < 60)%Z
       /\ digits ss = true /\ decimal ss = sec /\ (0 <= sec < 60)%Z.
Proof.
  unfold Map1.strptime_MS, Map1.datetime. intros H.
  destruct (Map1.match_MS s) as [[[m' s'] r]|] eqn:E; [|discriminate].
  destruct r; [|discriminate].
  destruct (s' <=? 59)%Z eqn:B; [|discriminate].
  injection H as <- <- <-. apply Z.leb_le in B. split; [reflexivity|].
  apply match_MS_sound in E as (ms & ss & -> & Dm & Vm & Bm & Ds & Vs & Bs).
  exists ms, ss. rewrite app_nil_r. repeat split; auto; lia.
Qed.

(** X1.  A valid clock time reads the same in the two scripts: what
    [datetime.strptime] accepts in [map.py], with hours below 24 and
    minutes and seconds below 60, is what [time_to_seconds] of [map3.py]
    converts to the same number of seconds. *)
Theorem clock_times_agree (s : str) (h m sec : Z) :
  (Map1.strptime_HMS s = Ok (h, m, sec) ->
     (0 <= h < 24)%Z /\ (0 <= m < 60)%Z /\ (0 <= sec < 60)%Z
     /\ Map3.time_to_seconds (VStr s) = Ok (h * 3600 + m * 60 + sec)%Z)
  /\ (Map1.strptime_MS s = Ok (h, m, sec) ->
        h = 0%Z /\ (0 <= m < 60)%Z /\ (0 <= sec < 60)%Z
        /\ Map3.time_to_seconds (VStr s) = Ok (m * 60 + sec)%Z).
Proof.
  split; intros H.
  - apply strptime_HMS_sound in H
      as (hs & ms & ss & -> & Dh & <- & Bh & Dm & <- & Bm & Ds & <- & Bs).
    repeat split; try lia. now apply seconds_of_three.
  - apply strptime_MS_sound in H
      as (-> & ms & ss & -> & Dm & <- & Bm & Ds & <- & Bs).
    repeat split; try lia. now apply seconds_of_two.
Qed.

Lemma clock_times_agree_witness :
  Map1.strptime_HMS (lit "01:05:30") = Ok (1, 5, 30)%Z
  /\ Map3.time_to_seconds (VStr (lit "01:05:30")) = Ok 3930%Z.
Proof.
  assert (H : Map1.strptime_HMS (lit "01:05:30") = Ok (1, 5, 30)%Z)
    by (vm_compute; reflexivity).
  split; [exact H|].
  exact (proj2 (proj2 (proj2
           (proj1 (clock_times_agree (lit "01:05:30") 1 5 30) H)))).
Defined.

Lemma count_char_app c a b :
  count_char c (a ++ b) = (count_char c a + count_char c b)%nat.
Proof. unfold count_char. now rewrite filter_app, length_app. Qed.

Lemma count_char_cons c x s :
  count_char c (x :: s)
  = ((if (c =? x)%N then 1 else 0) + count_char c s)%nat.
Proof. unfold count_char. cbn [filter]. now destruct (c =? x)%N. Qed.

Lemma count_digits ds : forallb is_digit ds = true -> count_char 58 ds = 0%nat.
Proof.
  induction ds as [|c ds IH]; intros H; [reflexivity|].
  simpl in H. apply andb_prop in H as [Hc H].
  rewrite count_char_cons, N.eqb_sym,
    (MetricsProperties.digit_not_colon c Hc).
  now apply IH.
Qed.

Lemma strptime_HMS_colons s tm :
  Map1.strptime_HMS s = Ok tm -> count_char 58 s = 2%nat.
Proof.
  destruct tm as [[h m] sec]. intros H.
  apply strptime_HMS_sound in H
    as (hs & ms & ss & -> & Dh & _ & _ & Dm & _ & _ & Ds & _ & _).
  rewrite count_char_app, count_char_cons, count_char_app, count_char_cons.
  rewrite !count_digits by now apply MetricsProperties.digits_all.
  reflexivity.
Qed.

Lemma strptime_HMS_raises s e :
  Map1.strptime_HMS s = Raise e -> e = ValueError.
Proof.
  unfold Map1.strptime_HMS, Map1.datetime.
  destruct (Map1.match_HMS s) as [[[[h m] sec] [|]]|]; try congruence.
  destruct (sec <=? 59)%Z; congruence.
Qed.

Lemma strptime_MS_raises s e :
  Map1.strptime_MS s = Raise e -> e = ValueError.
Proof.
  unfold Map1.strptime_MS, Map1.datetime.
  destruct (Map1.match_MS s) as [[[m sec] [|]]|]; try congruence.
  destruct (sec <=? 59)%Z; congruence.
Qed.

(** X2.  The loop of [times] on a record whose timestamp is a string.  When
    the timestamp does not have exactly one colon the conversion returns,
    with the time read in the format [%H:%M:%S] or else with midnight.
    When it has exactly one colon the result is that of the format
    [%M:%S], whose [ValueError] is not caught: this is the only way the
    conversion raises. *)
Theorem convert_raises_only_on_one_colon (point : value) (ts : str) :
  getitem point (lit "timestamp") = Ok (VStr ts) ->
  (count_char 58 ts <> 1%nat ->
     exists tm, Map1.convert point = Ok tm
                /\ (Map1.strptime_HMS ts = Ok tm \/ tm = (0, 0, 0)%Z))
  /\ (count_char 58 ts = 1%nat ->
        Map1.convert point = Map1.strptime_MS ts)
  /\ (forall e, Map1.convert point = Raise e ->
        e = ValueError /\ count_char 58 ts = 1%nat
        /\ Map1.strptime_MS ts = Raise ValueError).
Proof.
  intros G.
  assert (E : Map1.convert point
              = except_value_error (Map1.strptime_HMS ts)
                  (if Nat.eqb (count_char 58 ts) 1
                   then Map1.strptime_MS ts else Ok (0, 0, 0)%Z)).
  { unfold Map1.convert. rewrite G. reflexivity. }
  assert (C1 : count_char 58 ts = 1%nat ->
               Map1.convert point = Map1.strptime_MS ts).
  { intros C. rewrite E, C. simpl.
    destruct (Map1.strptime_HMS ts) as [tm|e] eqn:H.
    - apply strptime_HMS_colons in H. congruence.
    - apply strptime_HMS_raises in H. subst e. reflexivity. }
  assert (C0 : count_char 58 ts <> 1%nat ->
     exists tm, Map1.convert point = Ok tm
                /\ (Map1.strptime_HMS ts = Ok tm \/ tm = (0, 0, 0)%Z)).
  { intros C. rewrite E. apply Nat.eqb_neq in C. rewrite C.
    destruct (Map1.strptime_HMS ts) as [tm|e] eqn:H.
    - exists tm. split; [reflexivity | now left].
    - apply strptime_HMS_raises in H. subst e.
      exists (0, 0, 0)%Z. split; [reflexivity | now right]. }
  split; [exact C0|]. split; [exact C1|].
  intros e R.
  destruct (Nat.eq_dec (count_char 58 ts) 1) as [C|C].
  - rewrite (C1 C) in R. pose proof (strptime_MS_raises _ _ R). subst e.
    repeat split; assumption.
  - destruct (C0 C) as (tm & K & _). congruence.
Qed.

Lemma convert_raises_only_on_one_colon_witness :
  let point := VDict [(lit "timestamp", VStr (lit "75:30"))] in
  getitem point (lit "timestamp") = Ok (VStr (lit "75:30"))
  /\ count_char 58 (lit "75:30") = 1%nat
  /\ Map1.convert point = Map1.strptime_MS (lit "75:30")
  /\ Map1.strptime_MS (lit "75:30") = Raise ValueError.
Proof.
  intros point.
  assert (G : getitem point (lit "timestamp") = Ok (VStr (lit "75:30")))
    by reflexivity.
  assert (C : count_char 58 (lit "75:30") = 1%nat) by reflexivity.
  split; [exact G|]. split; [exact C|]. split.
  - exact (proj1 (proj2 (convert_raises_only_on_one_colon point _ G)) C).
  - vm_compute. reflexivity.
Defined.

(** [strip] takes off what is blank at the two ends and nothing else. *)
Lemma lstrip_prefix p w s :
  forallb p w = true -> lstrip_by p (w ++ s) = lstrip_by p s.
Proof.
  induction w as [|c w IH]; intros H; [reflexivity|].
  simpl in H. apply andb_prop in H as [Hc H]. simpl. rewrite Hc. now apply IH.
Qed.

Lemma lstrip_all p w : forallb p w = true -> lstrip_by p w = [].
Proof.
  intros H. rewrite <- (app_nil_r w). now rewrite lstrip_prefix.
Qed.

Lemma lstrip_app p s w :
  lstrip_by p (s ++ w)
  = if forallb p s then lstrip_by p w else lstrip_by p s ++ w.
Proof.
  induction s as [|c s IH]; [reflexivity|].
  simpl. destruct (p c); [exact IH | reflexivity].
Qed.

Lemma forallb_rev {A} (p : A -> bool) l : forallb p (rev l) = forallb p l.
Proof.
  induction l as [|x l IH]; [reflexivity|].
  simpl. rewrite forallb_app, IH. simpl. rewrite andb_true_r.
  apply andb_comm.
Qed.

Lemma rstrip_suffix p s w :
  forallb p w = true -> rstrip_by p (s ++ w) = rstrip_by p s.
Proof.
  intros H. unfold rstrip_by. rewrite rev_app_distr.
  rewrite lstrip_prefix; [reflexivity | now rewrite forallb_rev].
Qed.

Lemma strip_blanks w s w' :
  blank w = true -> blank w' = true -> strip (w ++ s ++ w') = strip s.
Proof.
  unfold blank, strip. intros Hw Hw'.
  rewrite (lstrip_prefix _ w _ Hw), lstrip_app.
  destruct (forallb isspace s) eqn:E.
  - now rewrite (lstrip_all _ w' Hw'), (lstrip_all _ s E).
  - now apply rstrip_suffix.
Qed.

(** X3.  [time_to_seconds] ignores what is blank around the timestamp. *)
Theorem time_to_seconds_ignores_blanks (w t w' : str) :
  blank w = true -> blank w' = true ->
  Map3.time_to_seconds (VStr (w ++ t ++ w')) = Map3.time_to_seconds (VStr t).
Proof.
  intros Hw Hw'. unfold Map3.time_to_seconds.
  now rewrite (strip_blanks w t w' Hw Hw').
Qed.

Lemma time_to_seconds_ignores_blanks_witness :
  blank [32%N; 9%N] = true /\ blank [10%N] = true
  /\ Map3.time_to_seconds (VStr ([32%N; 9%N] ++ lit "05:30" ++ [10%N]))
     = Map3.time_to_seconds (VStr (lit "05:30")).
Proof.
  split; [reflexivity|]. split; [reflexivity|].
  apply (time_to_seconds_ignores_blanks [32%N; 9%N] (lit "05:30") [10%N]);
    reflexivity.
Defined.

Lemma split_colon_aux_length cur s :
  List.length (split_colon_aux cur s) = S (count_char 58 s).
Proof.
  revert cur. induction s as [|c s IH]; intros cur; [reflexivity|].
  simpl. rewrite count_char_cons, (N.eqb_sym 58 c).
  destruct (c =? 58)%N; simpl; now rewrite IH.
Qed.

Lemma count_lstrip s :
  count_char 58 (lstrip_by isspace s) = count_char 58 s.
Proof.
  induction s as [|c s IH]; [reflexivity|].
  simpl. destruct (isspace c) eqn:E; [|reflexivity].
  rewrite IH, count_char_cons.
  destruct (58 =? c)%N eqn:C; [|reflexivity].
  apply N.eqb_eq in C. subst c. discriminate.
Qed.

Lemma count_char_rev c s : count_char c (rev s) = count_char c s.
Proof.
  induction s as [|x s IH]; [reflexivity|].
  simpl. rewrite count_char_app, IH, !count_char_cons.
  unfold count_char at 2. simpl. lia.
Qed.

Lemma count_strip s : count_char 58 (strip s) = count_char 58 s.
Proof.
  unfold strip, rstrip_by.
  now rewrite count_char_rev, count_lstrip, count_char_rev, count_lstrip.
Qed.

Lemma int_of_str_raises s e : int_of_str s = Raise e -> e = ValueError.
Proof.
  unfold int_of_str.
  destruct (strip s) as [|c r].
  - simpl. congruence.
  - destruct (c =? 43)%N; [|destruct (c =? 45)%N];
      match goal with
      | |- context [int_digits ?a ?b ?l] => destruct (int_digits a b l)
      end; congruence.
Qed.

Lemma mapM_int_of_str parts :
  mapM int_of_str parts = Raise ValueError
  \/ exists zs, mapM int_of_str parts = Ok zs
                /\ List.length zs = List.length parts.
Proof.
  induction parts as [|p parts IH]; [right; now exists []|].
  cbn [mapM]. destruct (int_of_str p) as [z|e] eqn:E.
  - destruct IH as [->|(zs & -> & L)]; [now left|].
    right. exists (z :: zs). split; [reflexivity | simpl; congruence].
  - left. apply int_of_str_raises in E. now subst e.
Qed.

Lemma time_to_seconds_raises v e :
  Map3.time_to_seconds v = Raise e -> e = ValueError \/ e = AttributeError.
Proof.
  destruct v; try (intros H; injection H as <-; now right).
  unfold Map3.time_to_seconds.
  destruct (mapM_int_of_str (split_colon (strip s))) as [->|(zs & -> & _)];
    cbn [bind].
  - intros H. injection H as <-. now left.
  - destruct (Map3.pad_front (3 - List.length zs) zs)
      as [|? [|? [|? [|? ?]]]]; intros H; try discriminate;
      injection H as <-; now left.
Qed.

(** X4.  The errors of [time_to_seconds].  On a string it raises nothing but
    [ValueError], and it always does when the string has more than two
    colons; a value that is not a string has no [strip]. *)
Theorem time_to_seconds_errors (t : str) :
  (forall e, Map3.time_to_seconds (VStr t) = Raise e -> e = ValueError)
  /\ ((3 <= count_char 58 t)%nat ->
      Map3.time_to_seconds (VStr t) = Raise ValueError)
  /\ (forall z : Z,
        Map3.time_to_seconds (VInt z) = Raise AttributeError
        /\ Map3.time_to_seconds VNone = Raise AttributeError).
Proof.
  unfold Map3.time_to_seconds.
  pose proof (split_colon_aux_length [] (strip t)) as L.
  fold (split_colon (strip t)) in L. rewrite count_strip in L.
  destruct (mapM_int_of_str (split_colon (strip t))) as [->|(zs & -> & Lz)];
    cbn [bind].
  - repeat split; congruence.
  - split; [|split; [|now split]].
    + intros e.
      destruct (Map3.pad_front (3 - List.length zs) zs)
        as [|? [|? [|? [|? ?]]]]; congruence.
    + intros C. rewrite Lz, L.
      replace (3 - S (count_char 58 t))%nat with 0%nat by lia.
      cbn [Map3.pad_front].
      destruct zs as [|? [|? [|? [|? ?]]]]; simpl in Lz; try reflexivity; lia.
Qed.

Lemma time_to_seconds_errors_witness :
  (3 <= count_char 58 (lit "1:2:3:4"))%nat
  /\ Map3.time_to_seconds (VStr (lit "1:2:3:4")) = Raise ValueError.
Proof.
  assert (C : (3 <= count_char 58 (lit "1:2:3:4"))%nat)
    by (vm_compute; lia).
  split; [exact C|].
  exact (proj1 (proj2 (time_to_seconds_errors (lit "1:2:3:4"))) C).
Defined.

End TimeProperties.

(** * More on the metrics of [map3.py] and on the colours of [map.py] *)

Module MoreMetrics.
Import Py Track More.

Local Open Scope R_scope.



Lemma getitem_raises p k e :
  getitem p k = Raise e -> e = KeyError k \/ e = TypeError.
Proof.
  unfold getitem. destruct p; try (intros H; injection H as <-; now right).
  destruct (dict_lookup d k); intros H; [discriminate|].
  injection H as <-. now left.
Qed.

Lemma to_float_raises v e :
  to_float v = Raise e -> e = TypeError \/ e = NonFiniteFloat.
Proof.
  destruct v; intros H; try discriminate; injection H as <-; auto.
Qed.

Lemma timestamp_raises p e :
  bind (getitem p (lit "timestamp")) Map3.time_to_seconds = Raise e ->
  (e = KeyError (lit "timestamp")
   /\ getitem p (lit "timestamp") = Raise e)
  \/ e = TypeError \/ e = ValueError \/ e = AttributeError.
Proof.
  destruct (getitem p (lit "timestamp")) as [v|e'] eqn:G; cbn [bind].
  - intros H. apply TimeProperties.time_to_seconds_raises in H. tauto.
  - intros H. injection H as ->. apply getitem_raises in G.
    destruct G as [-> | ->]; auto.
Qed.

(** The exceptions of one turn of the loop. *)
Lemma turn_raises prev curr d e :
  Map3.turn prev curr d = Raise e ->
  (exists k, e = KeyError k
             /\ (getitem prev k = Raise e \/ getitem curr k = Raise e))
  \/ e = TypeError \/ e = NonFiniteFloat
  \/ e = ValueError \/ e = AttributeError.
Proof.
  unfold Map3.turn, Map3.haversine_values.
  destruct (getitem prev (lit "lng")) as [vx1|e1] eqn:G1;
    [|intros H; injection H as ->;
      destruct (getitem_raises _ _ _ G1) as [-> | ->]; eauto 6].
  destruct (getitem prev (lit "lat")) as [vy1|e2] eqn:G2;
    [|intros H; injection H as ->;
      destruct (getitem_raises _ _ _ G2) as [-> | ->]; eauto 6].
  destruct (getitem curr (lit "lng")) as [vx2|e3] eqn:G3;
    [|intros H; injection H as ->;
      destruct (getitem_raises _ _ _ G3) as [-> | ->]; eauto 6].
  destruct (getitem curr (lit "lat")) as [vy2|e4] eqn:G4;
    [|intros H; injection H as ->;
      destruct (getitem_raises _ _ _ G4) as [-> | ->]; eauto 6].
  cbn [bind].
  destruct (to_float vy2) as [y2|] eqn:F4;
    [|intros H; injection H as ->; apply to_float_raises in F4; tauto].
  destruct (to_float vy1) as [y1|] eqn:F2;
    [|intros H; injection H as ->; apply to_float_raises in F2; tauto].
  destruct (to_float vx2) as [x2|] eqn:F3;
    [|intros H; injection H as ->; apply to_float_raises in F3; tauto].
  destruct (to_float vx1) as [x1|] eqn:F1;
    [|intros H; injection H as ->; apply to_float_raises in F1; tauto].
  cbn [bind].
  destruct (MetricsProperties.haversine_returns_nonneg x1 y1 x2 y2)
    as (h & -> & _).
  cbn [bind].
  destruct (bind (getitem curr (lit "timestamp")) Map3.time_to_seconds)
    as [tc|] eqn:T2.
  2:{ intros H. injection H as ->.
      destruct (timestamp_raises _ _ T2) as [[-> K]|[->|[-> | ->]]]; eauto 8. }
  destruct (bind (getitem prev (lit "timestamp")) Map3.time_to_seconds)
    as [tp|] eqn:T1.
  2:{ intros H. injection H as ->.
      destruct (timestamp_raises _ _ T1) as [[-> K]|[->|[-> | ->]]]; eauto 8. }
  cbn [bind]. unfold truediv.
  destruct (Req_dec_T (IZR (Z.max (tc - tp) 1)) 0) as [Z0|NZ];
    [|discriminate].
  apply eq_IZR_R0 in Z0. lia.
Qed.

Lemma turns_raises rest :
  forall prev distances speeds e,
    Map3.turns prev rest distances speeds = Raise e ->
    exists a b d, In a (prev :: rest) /\ In b (prev :: rest)
                  /\ Map3.turn a b d = Raise e.
Proof.
  induction rest as [|curr rest IH]; intros prev distances speeds e H;
    [discriminate|].
  cbn [Map3.turns] in H.
  destruct (Map3.turn prev curr (last distances 0)) as [ds|e'] eqn:E.
  - cbn [bind] in H. destruct (IH _ _ _ _ H) as (a & b & d & Ia & Ib & T).
    exists a, b, d. repeat split; [now right | now right | exact T].
  - cbn [bind] in H. injection H as ->.
    exists prev, curr, (last distances 0).
    repeat split; [now left | right; now left | exact E].
Qed.

(** X6.  Whatever the records, the loop of lines 66-79 never raises
    [ZeroDivisionError]: the elapsed time is at least one second.  And
    on the records that [load_data] returns, it never raises [KeyError]
    for [lat] or [lng]: the filter has checked the two keys. *)
Theorem loop_never_divides_by_zero (hike : list value) :
  Map3.metrics hike <> Raise ZeroDivisionError
  /\ (forall content e,
        snd (Map3.load_data content) = Ok hike ->
        Map3.metrics hike = Raise e ->
        e <> KeyError (lit "lat") /\ e <> KeyError (lit "lng")).
Proof.
  assert (M : forall e, Map3.metrics hike = Raise e ->
            exists a b d, In a hike /\ In b hike
                          /\ Map3.turn a b d = Raise e).
  { intros e H. unfold Map3.metrics in H.
    destruct hike as [|p rest]; [discriminate|].
    now apply turns_raises in H. }
  split.
  - intros H. destruct (M _ H) as (a & b & d & _ & _ & T).
    apply turn_raises in T as [(k & K & _)|[K|[K|[K|K]]]]; discriminate.
  - intros content e L H.
    rewrite ParserProperties.load_data3_eq in L. injection L as L.
    assert (F : forall p, In p hike -> track_point p = true).
    { intros p Hp. rewrite <- L in Hp.
      destruct (Json.loads (wrapped content)) as [[]|]; try contradiction.
      now apply filter_In in Hp. }
    destruct (M _ H) as (a & b & d & Ia & Ib & T).
    assert (G : forall p k, track_point p = true ->
                k = lit "lat" \/ k = lit "lng" ->
                getitem p k <> Raise (KeyError k)).
    { intros p k Hp Hk. unfold track_point in Hp. destruct p; try discriminate.
      unfold getitem.
      destruct (dict_lookup d0 (lit "lat")) eqn:E1; [|discriminate].
      destruct (dict_lookup d0 (lit "lng")) eqn:E2; [|discriminate].
      destruct Hk as [-> | ->]; [rewrite E1 | rewrite E2]; discriminate. }
    apply turn_raises in T as [(k & -> & K)|[->|[->|[-> | ->]]]];
      try (split; discriminate).
    split; intros X; injection X as ->;
      (destruct K as [K|K];
       [apply (G a _ (F a Ia)) in K | apply (G b _ (F b Ib)) in K]; auto).
Qed.

Lemma loop_never_divides_by_zero_witness :
  let content := lit "{'lat':1,'lng':2},{'lat':3,'lng':4}" in
  let hike := [VDict [(lit "lat", VInt 1); (lit "lng", VInt 2)];
               VDict [(lit "lat", VInt 3); (lit "lng", VInt 4)]] in
  snd (Map3.load_data content) = Ok hike
  /\ Map3.metrics hike = Raise (KeyError (lit "timestamp"))
  /\ KeyError (lit "timestamp") <> KeyError (lit "lat").
Proof.
  intros content hike.
  assert (L : snd (Map3.load_data content) = Ok hike)
    by (vm_compute; reflexivity).
  assert (M : Map3.metrics hike = Raise (KeyError (lit "timestamp"))).
  { unfold Map3.metrics, hike. cbn [Map3.turns].
    assert (T : forall d, Map3.turn
                  (VDict [(lit "lat", VInt 1); (lit "lng", VInt 2)])
                  (VDict [(lit "lat", VInt 3); (lit "lng", VInt 4)]) d
                = Raise (KeyError (lit "timestamp"))).
    { intros d. unfold Map3.turn.
      change (getitem (VDict [(lit "lat", VInt 1); (lit "lng", VInt 2)])
                (lit "lng")) with (Ok (VInt 2)).
      change (getitem (VDict [(lit "lat", VInt 1); (lit "lng", VInt 2)])
                (lit "lat")) with (Ok (VInt 1)).
      change (getitem (VDict [(lit "lat", VInt 3); (lit "lng", VInt 4)])
                (lit "lng")) with (Ok (VInt 4)).
      change (getitem (VDict [(lit "lat", VInt 3); (lit "lng", VInt 4)])
                (lit "lat")) with (Ok (VInt 3)).
      change (getitem (VDict [(lit "lat", VInt 3); (lit "lng", VInt 4)])
                (lit "timestamp")) with
        (@Raise value (KeyError (lit "timestamp"))).
      cbn [bind]. unfold Map3.haversine_values. cbn [to_float bind].
      destruct (MetricsProperties.haversine_returns_nonneg
                  (IZR 2) (IZR 1) (IZR 4) (IZR 3)) as (h & -> & _).
      reflexivity. }
    now rewrite T. }
  split; [exact L|]. split; [exact M|].
  exact (proj1 (proj2 (loop_never_divides_by_zero hike) content _ L M)).
Defined.





(** X8.  Two records at the same position, whatever their timestamps: the
    turn of the loop leaves the distance as it was and the speed is
    zero. *)
Theorem same_position_adds_nothing
  (prev curr : value) (x y : R) (t1 t2 : Z) (d : R) :
  measurable prev (x, y, t1) -> measurable curr (x, y, t2) ->
  Map3.turn prev curr d = Ok (d, 0).
Proof.
  intros Hp Hc. rewrite (MetricsProperties.turn_measurable _ _ _ _ d Hp Hc).
  unfold hav. cbn [fst snd].
  rewrite (MetricsProperties.haversine_same_point x y).
  f_equal. f_equal; [lra|]. unfold Rdiv. ring.
Qed.

Lemma same_position_adds_nothing_witness :
  let p := VDict [(lit "lat", VInt 45); (lit "lng", VInt 7);
                  (lit "timestamp", VStr (lit "00:01:00"))] in
  let q := VDict [(lit "lat", VInt 45); (lit "lng", VInt 7);
                  (lit "timestamp", VStr (lit "00:02:00"))] in
  measurable p (IZR 7, IZR 45, 60%Z) /\ measurable q (IZR 7, IZR 45, 120%Z)
  /\ Map3.turn p q 5 = Ok (5, 0).
Proof.
  intros p q.
  assert (Hp : measurable p (IZR 7, IZR 45, 60%Z)).
  { split; [eexists; eexists; repeat split; vm_compute; reflexivity|].
    vm_compute. reflexivity. }
  assert (Hq : measurable q (IZR 7, IZR 45, 120%Z)).
  { split; [eexists; eexists; repeat split; vm_compute; reflexivity|].
    vm_compute. reflexivity. }
  split; [exact Hp|]. split; [exact Hq|].
  exact (same_position_adds_nothing p q _ _ _ _ 5 Hp Hq).
Defined.



(** [min(altitudes)] and [max(altitudes)]: elements of the list, below
    and above all the others. *)
Lemma fold_min_spec r : forall x,
  In (fold_left Rmin r x) (x :: r)
  /\ forall y, In y (x :: r) -> fold_left Rmin r x <= y.
Proof.
  induction r as [|z r IH]; intros x.
  - simpl. split; [now left|]. intros y [<-|[]]. lra.
  - cbn [fold_left]. destruct (IH (Rmin x z)) as [I L]. split.
    + destruct I as [I|I]; [|right; now right].
      rewrite <- I. unfold Rmin. destruct (Rle_dec x z);
        [now left | right; now left].
    + intros y Hy.
      assert (L0 : fold_left Rmin r (Rmin x z) <= Rmin x z)
        by (apply L; now left).
      destruct Hy as [<-|[<-|Hy]].
      * pose proof (Rmin_l x z). lra.
      * pose proof (Rmin_r x z). lra.
      * apply L. now right.
Qed.

Lemma fold_max_spec r : forall x,
  In (fold_left Rmax r x) (x :: r)
  /\ forall y, In y (x :: r) -> y <= fold_left Rmax r x.
Proof.
  induction r as [|z r IH]; intros x.
  - simpl. split; [now left|]. intros y [<-|[]]. lra.
  - cbn [fold_left]. destruct (IH (Rmax x z)) as [I L]. split.
    + destruct I as [I|I]; [|right; now right].
      rewrite <- I. unfold Rmax. destruct (Rle_dec x z);
        [right; now left | now left].
    + intros y Hy.
      assert (L0 : Rmax x z <= fold_left Rmax r (Rmax x z))
        by (apply L; now left).
      destruct Hy as [<-|[<-|Hy]].
      * pose proof (Rmax_l x z). lra.
      * pose proof (Rmax_r x z). lra.
      * apply L. now right.
Qed.

(** X10.  The colours of [get_color] when the altitudes are not all equal:
    every altitude of the track gets a hue between 0 and 120, the lowest
    one 120 (green), the highest one 0 (red), and a higher altitude never
    a greater hue. *)
Theorem get_color_gradient (altitudes : list R) (min_alt max_alt : R) :
  Map1.min_of altitudes = Ok min_alt ->
  Map1.max_of altitudes = Ok max_alt ->
  min_alt < max_alt ->
  In min_alt altitudes /\ In max_alt altitudes
  /\ Map1.get_color min_alt max_alt min_alt = Ok 120
  /\ Map1.get_color min_alt max_alt max_alt = Ok 0
  /\ (forall alt, In alt altitudes ->
        exists hue, Map1.get_color min_alt max_alt alt = Ok hue
                    /\ 0 <= hue <= 120)
  /\ (forall a b ha hb, a <= b ->
        Map1.get_color min_alt max_alt a = Ok ha ->
        Map1.get_color min_alt max_alt b = Ok hb -> hb <= ha).
Proof.
  intros Hmin Hmax Hlt.
  destruct altitudes as [|x r]; [discriminate|].
  simpl in Hmin, Hmax. injection Hmin as Hmin. injection Hmax as Hmax.
  destruct (fold_min_spec r x) as [Imin Lmin].
  destruct (fold_max_spec r x) as [Imax Lmax].
  rewrite Hmin in Imin, Lmin. rewrite Hmax in Imax, Lmax.
  assert (E : forall alt, Map1.get_color min_alt max_alt alt
                = Ok (120 * (1 - (alt - min_alt) / (max_alt - min_alt)))).
  { intros alt. unfold Map1.get_color, truediv.
    destruct (Req_dec_T (max_alt - min_alt) 0); [lra | reflexivity]. }
  assert (P : 0 < / (max_alt - min_alt))
    by (apply Rinv_0_lt_compat; lra).
  split; [exact Imin|]. split; [exact Imax|].
  split; [rewrite E; f_equal; field; lra|].
  split; [rewrite E; f_equal; field; lra|].
  split.
  - intros alt Ha. exists (120 * (1 - (alt - min_alt) / (max_alt - min_alt))).
    split; [apply E|].
    pose proof (Lmin alt Ha). pose proof (Lmax alt Ha).
    assert (0 <= (alt - min_alt) / (max_alt - min_alt))
      by (apply Rmult_le_pos; lra).
    assert ((alt - min_alt) / (max_alt - min_alt) <= 1).
    { apply Rmult_le_reg_r with (max_alt - min_alt); [lra|].
      unfold Rdiv. rewrite Rmult_assoc, Rinv_l by lra. lra. }
    lra.
  - intros a b ha hb Hab Ha Hb. rewrite E in Ha, Hb.
    injection Ha as <-. injection Hb as <-.
    assert ((a - min_alt) / (max_alt - min_alt)
            <= (b - min_alt) / (max_alt - min_alt))
      by (apply Rmult_le_compat_r; lra).
    lra.
Qed.

Lemma get_color_gradient_witness :
  Map1.min_of [1000; 1010; 1005] = Ok 1000
  /\ Map1.max_of [1000; 1010; 1005] = Ok 1010
  /\ 1000 < 1010
  /\ Map1.get_color 1000 1010 1000 = Ok 120
  /\ Map1.get_color 1000 1010 1010 = Ok 0.
Proof.
  assert (Hmin : Map1.min_of [1000; 1010; 1005] = Ok 1000).
  { simpl. f_equal. unfold Rmin.
    destruct (Rle_dec 1000 1010); [|lra]. destruct (Rle_dec 1000 1005); lra. }
  assert (Hmax : Map1.max_of [1000; 1010; 1005] = Ok 1010).
  { simpl. f_equal. unfold Rmax.
    destruct (Rle_dec 1000 1010); [|lra]. destruct (Rle_dec 1010 1005); lra. }
  assert (Hlt : 1000 < 1010) by lra.
  split; [exact Hmin|]. split; [exact Hmax|]. split; [exact Hlt|].
  destruct (get_color_gradient _ _ _ Hmin Hmax Hlt) as (_ & _ & A & B & _).
  split; [exact A | exact B].
Defined.

End MoreMetrics.

(** * More on the loaders *)

Module MoreParser.
Import Py Track More.

(** X11.  In the loop of [map.py] and [map2.py], the two guards on a fragment
    change nothing: a fragment that one of the patterns has found starts
    and ends with a brace, so it is never passed over and never given a
    closing brace; it is decoded as it is. *)
Theorem loop_guards_never_fire
  (content f : str) (data : list value) (log : list str) :
  In f (Re.findall_hike content) \/ In f (Re.findall_flat content) ->
  Loop.body (data, log) f
  = match Json.loads f with
    | Some v => (data ++ [v], log)
    | None => (data, log ++ [firstn 100 f])
    end.
Proof.
  intros H.
  assert (E : exists body, f = fragment body).
  { destruct H as [H|H];
      [destruct (ParserProperties.findall_hike_bodies content) as [bs B]
      |destruct (ParserProperties.findall_flat_bodies content) as [bs B]];
      rewrite B in H; apply in_map_iff in H as (b & <- & _); eauto. }
  destruct E as [body ->]. apply LoadFacts.body_fragment.
Qed.

Lemma loop_guards_never_fire_witness :
  let content := lit "x{'lat':1} {bad}" in
  In (lit "{bad}") (Re.findall_flat content)
  /\ Loop.body ([], []) (lit "{bad}") = ([], [lit "{bad}"]).
Proof.
  intros content.
  assert (I : In (lit "{bad}") (Re.findall_flat content))
    by (vm_compute; right; left; reflexivity).
  split; [exact I|].
  rewrite (loop_guards_never_fire content _ [] [] (or_intror I)).
  vm_compute. reflexivity.
Defined.





Lemma filterM_raises p l e :
  filterM p l = Raise e -> exists x, In x l /\ p x = Raise e.
Proof.
  induction l as [|x l IH]; [discriminate|].
  cbn [filterM]. destruct (p x) as [b|e'] eqn:E; cbn [bind].
  - destruct (filterM p l) as [r|e'']; [discriminate|]. cbn [bind].
    intros H. injection H as ->. destruct (IH eq_refl) as (y & I & Hy).
    exists y. split; [now right | exact Hy].
  - intros H. injection H as ->. exists x. split; [now left | exact E].
Qed.



Lemma keep1_raises d e :
  Map1.keep (VDict d) = Raise e ->
  e = KeyError (lit "lat") \/ e = KeyError (lit "lng").
Proof.
  unfold Map1.keep, or_else, getitem.
  destruct (dict_lookup d (lit "lat")) as [a|]; cbn [bind].
  - destruct (ne_zero a); [discriminate|].
    destruct (dict_lookup d (lit "lng")); cbn [bind]; [discriminate|].
    intros H. injection H as <-. now right.
  - intros H. injection H as <-. now left.
Qed.

Lemma keep1_has_lat p :
  Map1.keep p = Ok true ->
  exists d v, p = VDict d /\ dict_lookup d (lit "lat") = Some v.
Proof.
  unfold Map1.keep, or_else, getitem. destruct p; try discriminate.
  destruct (dict_lookup d (lit "lat")) as [a|] eqn:E; [|discriminate].
  intros _. now exists d, a.
Qed.

Lemma load_hike_data_errors_aux content :
  (forall e, snd (Map1.load_hike_data content) = Raise e ->
     e = KeyError (lit "lat") \/ e = KeyError (lit "lng"))
  /\ (forall out, snd (Map1.load_hike_data content) = Ok out ->
        Forall (fun p => exists d v,
                  p = VDict d /\ dict_lookup d (lit "lat") = Some v) out).
Proof.
  rewrite ParserProperties.load_hike_data_eq. cbn [snd].
  destruct (ParserProperties.findall_hike_bodies
              (rstrip_comma (strip content))) as [bodies ->].
  split.
  - intros e H. apply filterM_raises in H as (x & I & K).
    pose proof (LoadFacts.decode_all_dicts bodies) as D.
    rewrite Forall_forall in D. destruct (D x I) as [d ->].
    now apply keep1_raises in K.
  - intros out H. apply LoadFacts.filterM_subseq in H as [_ F].
    eapply Forall_impl; [|exact F]. intros p. apply keep1_has_lat.
Qed.




(** The clean-up of the content: what is blank at the two ends and the
    commas at the end are taken off. *)
Lemma strip_ends c mid d :
  isspace c = false -> isspace d = false ->
  strip (c :: mid ++ [d]) = c :: mid ++ [d].
Proof.
  intros Hc Hd. unfold strip. rewrite PyFacts.lstrip_by_keep by exact Hc.
  change (c :: mid ++ [d]) with ((c :: mid) ++ [d]).
  now apply PyFacts.rstrip_by_keep.
Qed.

Lemma forallb_repeat {A} (p : A -> bool) x n :
  p x = true -> forallb p (repeat x n) = true.
Proof. intros H. induction n; simpl; [reflexivity | now rewrite H]. Qed.

Lemma cleanup_tolerant c mid d w w' n :
  isspace c = false -> isspace d = false -> d <> 44%N ->
  blank w = true -> blank w' = true ->
  rstrip_comma (strip (w ++ ((c :: mid ++ [d]) ++ repeat 44%N n) ++ w'))
  = c :: mid ++ [d].
Proof.
  intros Hc Hd Hn Hw Hw'.
  rewrite (TimeProperties.strip_blanks w _ w' Hw Hw').
  assert (S : strip ((c :: mid ++ [d]) ++ repeat 44%N n)
              = (c :: mid ++ [d]) ++ repeat 44%N n).
  { destruct n as [|n].
    - simpl. rewrite app_nil_r. now apply strip_ends.
    - change (repeat 44%N (S n)) with (44%N :: repeat 44%N n).
      rewrite repeat_cons, app_assoc.
      change ((c :: mid ++ [d]) ++ repeat 44%N n)
        with (c :: (mid ++ [d]) ++ repeat 44%N n).
      now apply strip_ends. }
  rewrite S. unfold rstrip_comma.
  rewrite TimeProperties.rstrip_suffix by now apply forallb_repeat.
  change (c :: mid ++ [d]) with ((c :: mid) ++ [d]).
  apply PyFacts.rstrip_by_keep. now apply N.eqb_neq, not_eq_sym.
Qed.

(** X15.  The three loaders take no notice of what is blank around the
    content.  Those of [map.py] and [map2.py] take no notice either of
    any number of commas at the end, the one of [map3.py] of one comma at
    the end. *)
Theorem separators_at_the_ends_are_ignored
  (c d : N) (mid w w' : str) (n : nat) :
  isspace c = false -> isspace d = false -> d <> 44%N ->
  blank w = true -> blank w' = true ->
  let text := c :: mid ++ [d] in
  Map1.load_hike_data (w ++ (text ++ repeat 44%N n) ++ w')
    = Map1.load_hike_data text
  /\ Map2.load_data (w ++ (text ++ repeat 44%N n) ++ w') = Map2.load_data text
  /\ Map3.load_data (w ++ (text ++ [44%N]) ++ w') = Map3.load_data text
  /\ Map3.load_data (w ++ text ++ w') = Map3.load_data text.
Proof.
  intros Hc Hd Hn Hw Hw' text.
  pose proof (cleanup_tolerant c mid d w w' n Hc Hd Hn Hw Hw') as C1.
  pose proof (cleanup_tolerant c mid d [] [] 0 Hc Hd Hn eq_refl eq_refl) as C0.
  cbn [app repeat] in C0. rewrite !app_nil_r in C0.
  fold text in C1, C0.
  assert (S0 : strip text = text) by now apply strip_ends.
  assert (E0 : endswith 44 text = false).
  { unfold endswith, text. simpl. rewrite rev_app_distr. simpl.
    now apply N.eqb_neq. }
  split; [|split; [|split]].
  - unfold Map1.load_hike_data. now rewrite C1, C0.
  - unfold Map2.load_data. now rewrite C1, C0.
  - unfold Map3.load_data.
    rewrite (TimeProperties.strip_blanks w _ w' Hw Hw').
    assert (S1 : strip (text ++ [44%N]) = text ++ [44%N]).
    { unfold text. change ((c :: mid ++ [d]) ++ [44%N])
        with (c :: (mid ++ [d]) ++ [44%N]).
      now apply strip_ends. }
    rewrite S1, S0, E0.
    replace (endswith 44 (text ++ [44%N])) with true
      by (unfold endswith; now rewrite rev_app_distr).
    unfold drop_last. now rewrite removelast_last.
  - unfold Map3.load_data.
    now rewrite (TimeProperties.strip_blanks w _ w' Hw Hw').
Qed.

Lemma separators_at_the_ends_are_ignored_witness :
  let text := lit "{'lat':1,'lng':2}" in
  isspace 123 = false /\ isspace 125 = false /\ 125%N <> 44%N
  /\ blank [32%N] = true /\ blank [10%N] = true
  /\ Map3.load_data ([32%N] ++ (text ++ [44%N]) ++ [10%N])
     = Map3.load_data text.
Proof.
  intros text.
  split; [reflexivity|]. split; [reflexivity|]. split; [discriminate|].
  split; [reflexivity|]. split; [reflexivity|].
  apply (separators_at_the_ends_are_ignored 123 125 (lit "'lat':1,'lng':2")
           [32%N] [10%N] 0); try reflexivity; discriminate.
Defined.

(** ** A blank before the last comma *)

Lemma findall_from_no_brace m s :
  (forall c r, (c =? 123)%N = false -> m (c :: r) = None) ->
  forallb (fun c => negb (c =? 123)%N) s = true ->
  Re.findall_from m 0 s = [].
Proof.
  intros Hm. induction s as [|c s IH]; intros H; [reflexivity|].
  simpl in H. apply andb_prop in H as [Hc H]. apply negb_true_iff in Hc.
  cbn [Re.findall_from]. rewrite (Hm c s Hc). now apply IH.
Qed.

Lemma blank_no_brace w :
  blank w = true ->
  forallb (fun c => negb ((c =? 123) || (c =? 125))%N) w = true.
Proof.
  unfold blank. induction w as [|c w IH]; intros H; [reflexivity|].
  simpl in H. apply andb_prop in H as [Hc H]. simpl. rewrite (IH H).
  destruct (c =? 123)%N eqn:E1;
    [apply N.eqb_eq in E1; subst c; discriminate|].
  destruct (c =? 125)%N eqn:E2;
    [apply N.eqb_eq in E2; subst c; discriminate|]. reflexivity.
Qed.

Lemma lazy_close_no_closing s :
  forallb (fun c => negb (c =? 125)%N) s = true -> Re.lazy_close s = None.
Proof.
  induction s as [|c s IH]; intros H; [reflexivity|].
  simpl in H. apply andb_prop in H as [Hc H]. apply negb_true_iff in Hc.
  cbn [Re.lazy_close]. rewrite Hc. cbn [andb]. now rewrite (IH H).
Qed.

Lemma lazy_close_blank_after b w :
  brace_free b = true -> blank w = true -> Re.at_end w = false ->
  Re.lazy_close (b ++ 125%N :: w) = None.
Proof.
  intros Hb Hw He. induction b as [|c b IH].
  - cbn [app Re.lazy_close N.eqb Pos.eqb andb].
    assert (L : Re.lookahead w = false).
    { unfold Re.lookahead, Re.comma_then_brace.
      rewrite (TimeProperties.lstrip_all _ w Hw). now rewrite He. }
    rewrite L. rewrite lazy_close_no_closing; [reflexivity|].
    pose proof (blank_no_brace w Hw) as B.
    rewrite forallb_forall in B. apply forallb_forall. intros x Hx.
    specialize (B x Hx). apply negb_true_iff, orb_false_iff in B as [_ B].
    now rewrite B.
  - simpl in Hb. apply andb_prop in Hb as [Hc Hb].
    apply negb_true_iff, orb_false_iff in Hc as [_ Hc].
    cbn [app Re.lazy_close]. rewrite Hc. cbn [andb]. now rewrite (IH Hb).
Qed.

Lemma findall_hike_last_lost b w :
  brace_free b = true -> blank w = true -> Re.at_end w = false ->
  Re.findall_from Re.match_hike 0 (fragment b ++ w) = [].
Proof.
  intros Hb Hw He. unfold fragment.
  replace ((123%N :: b ++ [125%N]) ++ w) with (123%N :: b ++ 125%N :: w)
    by (simpl; now rewrite <- app_assoc).
  cbn [Re.findall_from Re.match_hike N.eqb Pos.eqb].
  rewrite (lazy_close_blank_after b w Hb Hw He).
  apply findall_from_no_brace; [exact ReFacts.match_hike_none|].
  rewrite forallb_app. apply andb_true_intro. split.
  - unfold brace_free in Hb. rewrite forallb_forall in Hb.
    apply forallb_forall. intros x Hx. specialize (Hb x Hx).
    apply negb_true_iff, orb_false_iff in Hb as [Hb _]. now rewrite Hb.
  - simpl. pose proof (blank_no_brace w Hw) as B.
    rewrite forallb_forall in B. apply forallb_forall. intros x Hx.
    specialize (B x Hx). apply negb_true_iff, orb_false_iff in B as [B _].
    now rewrite B.
Qed.

Lemma findall_flat_blank_after b w :
  brace_free b = true -> blank w = true ->
  Re.findall_from Re.match_flat 0 (fragment b ++ w) = [fragment b].
Proof.
  intros Hb Hw. unfold fragment.
  replace ((123%N :: b ++ [125%N]) ++ w) with (123%N :: b ++ 125%N :: w)
    by (simpl; now rewrite <- app_assoc).
  cbn [Re.findall_from Re.match_flat N.eqb Pos.eqb].
  rewrite (ReFacts.plain_close_flat b w Hb).
  replace (List.length (123%N :: b ++ [125%N]) - 1)
    with (List.length (b ++ [125%N])) by (simpl; lia).
  replace (b ++ 125%N :: w) with ((b ++ [125%N]) ++ w)
    by now rewrite <- app_assoc.
  rewrite ReFacts.findall_from_skip. f_equal.
  rewrite <- (app_nil_r w).
  now rewrite (ReFacts.findall_from_blank _ w [] ReFacts.match_flat_none Hw).
Qed.

(** The fragments found in a well separated sequence followed by blanks:
    the pattern of [map.py] misses the last one, the pattern of [map2.py]
    finds them all. *)
Lemma findall_sequence_blank_after items : forall first w,
  well_separated first items = true ->
  blank w = true -> Re.at_end w = false ->
  Re.findall_from Re.match_hike 0 (sequence first items ++ w)
  = removelast (fragments_of first items)
  /\ Re.findall_from Re.match_flat 0 (sequence first items ++ w)
     = fragments_of first items.
Proof.
  induction items as [|[[u u'] b] items IH]; intros first w H Hw He.
  - unfold well_separated in H. rewrite andb_true_r in H.
    unfold sequence, tail_of. cbn [map List.concat]. rewrite app_nil_r.
    split; [now apply findall_hike_last_lost
           | now apply findall_flat_blank_after].
  - pose proof H as H0. unfold well_separated in H.
    apply andb_prop in H as [Hb Hitems]. pose proof Hitems as Hitems0.
    cbn [forallb] in Hitems. apply andb_prop in Hitems as [Hi Hrest].
    cbn [fst snd] in Hi.
    apply andb_prop in Hi as [Hi Hb']. apply andb_prop in Hi as [Hu Hu'].
    assert (W : well_separated b items = true)
      by (unfold well_separated; now rewrite Hb', Hrest).
    destruct (IH b w W Hw He) as [IH1 IH2].
    assert (E : sequence first ((u, u', b) :: items) ++ w
                = 123%N :: first ++ 125%N ::
                    (u ++ 44%N :: u' ++ sequence b items ++ w)).
    { unfold sequence. rewrite ReFacts.tail_of_cons. unfold fragment.
      repeat (rewrite <- app_assoc; cbn [app]). reflexivity. }
    assert (L : Re.lookahead (u ++ 44%N :: u' ++ sequence b items ++ w)
                = true).
    { unfold Re.lookahead, Re.comma_then_brace.
      rewrite (ReFacts.lstrip_blank u _ _ Hu) by reflexivity.
      cbn [tl startswith]. unfold sequence, fragment.
      repeat (rewrite <- app_assoc; cbn [app]).
      rewrite (ReFacts.lstrip_blank u' _ _ Hu') by reflexivity.
      reflexivity. }
    assert (G : forall m,
              (forall c r, (c =? 123)%N = false -> m (c :: r) = None) ->
              m (123%N :: first ++ 125%N ::
                   (u ++ 44%N :: u' ++ sequence b items ++ w))
              = Some (123%N :: first ++ [125%N],
                      u ++ 44%N :: u' ++ sequence b items ++ w) ->
              Re.findall_from m 0 (sequence first ((u, u', b) :: items) ++ w)
              = fragment first
                  :: Re.findall_from m 0 (sequence b items ++ w)).
    { intros m Hnone Hsome. rewrite E. cbn [Re.findall_from]. rewrite Hsome.
      replace (List.length (123%N :: first ++ [125%N]) - 1)
        with (List.length (first ++ [125%N])) by (simpl; lia).
      replace (first ++ 125%N :: u ++ 44%N :: u' ++ sequence b items ++ w)
        with ((first ++ [125%N])
                ++ u ++ 44%N :: u' ++ sequence b items ++ w)
        by now rewrite <- app_assoc.
      rewrite ReFacts.findall_from_skip.
      rewrite (ReFacts.findall_from_blank m u _ Hnone Hu).
      cbn [Re.findall_from]. rewrite (Hnone 44%N) by reflexivity.
      rewrite (ReFacts.findall_from_blank m u' _ Hnone Hu').
      reflexivity. }
    split.
    + rewrite (G _ ReFacts.match_hike_none
                 (ReFacts.match_hike_fragment first _ Hb L)), IH1.
      reflexivity.
    + rewrite (G _ ReFacts.match_flat_none
                 (ReFacts.match_flat_fragment first _ Hb L)), IH2.
      reflexivity.
Qed.

(** X16.  In [map.py], a blank between the last closing brace and a comma at
    the end of the content makes the pattern miss the last object of a
    well separated sequence: it is neither decoded nor reported.  The
    pattern of [map2.py] finds all the objects. *)
Theorem blank_before_last_comma_loses_last_object
  (first : str) (items : list (str * str * str)) (w : str) :
  well_separated first items = true ->
  blank w = true -> Re.at_end w = false ->
  let content := (sequence first items ++ w) ++ [44%N] in
  let frags := fragments_of first items in
  Map1.load_hike_data content
  = (map (firstn 100) (malformed (removelast frags)),
     filterM Map1.keep (decode_all (removelast frags)))
  /\ Map2.load_data content
     = (map (firstn 100) (malformed frags),
        Ok (filter (fun p => negb (sentinel p)) (decode_all frags))).
Proof.
  intros H Hw He content frags.
  assert (C : rstrip_comma (strip content) = sequence first items ++ w).
  { destruct (ReFacts.sequence_shape first items) as [x X].
    destruct (exists_last (l := w)) as (w0 & c & Ew);
      [intros ->; discriminate|].
    assert (Hc : isspace c = true).
    { unfold blank in Hw. rewrite Ew, forallb_app in Hw.
      apply andb_prop in Hw as [_ Hw]. simpl in Hw.
      now rewrite andb_true_r in Hw. }
    unfold content. rewrite X. unfold fragment.
    replace (((123%N :: x ++ [125%N]) ++ w) ++ [44%N])
      with (123%N :: (x ++ [125%N] ++ w) ++ [44%N])
      by (simpl; now rewrite <- !app_assoc).
    rewrite strip_ends by reflexivity.
    unfold rstrip_comma.
    replace (123%N :: (x ++ [125%N] ++ w) ++ [44%N])
      with ((123%N :: x ++ [125%N] ++ w) ++ [44%N]) by reflexivity.
    rewrite (TimeProperties.rstrip_suffix _ _ [44%N]) by reflexivity.
    rewrite Ew.
    replace (123%N :: x ++ [125%N] ++ w0 ++ [c])
      with ((123%N :: x ++ [125%N] ++ w0) ++ [c])
      by (simpl; now rewrite <- !app_assoc).
    rewrite PyFacts.rstrip_by_keep.
    - simpl. now rewrite <- !app_assoc.
    - destruct (44 =? c)%N eqn:E; [|reflexivity].
      apply N.eqb_eq in E. subst c. discriminate. }
  destruct (findall_sequence_blank_after items first w H Hw He) as [F1 F2].
  split.
  - rewrite ParserProperties.load_hike_data_eq. rewrite C.
    unfold Re.findall_hike. now rewrite F1.
  - rewrite ParserProperties.load_data2_eq. rewrite C.
    unfold Re.findall_flat. now rewrite F2.
Qed.

Lemma blank_before_last_comma_loses_last_object_witness :
  let first := lit "'lat':1,'lng':2" in
  well_separated first [] = true
  /\ blank [32%N] = true /\ Re.at_end [32%N] = false
  /\ Map1.load_hike_data ((sequence first [] ++ [32%N]) ++ [44%N])
     = ([], Ok [])
  /\ Map2.load_data ((sequence first [] ++ [32%N]) ++ [44%N])
     = ([], Ok [VDict [(lit "lat", VInt 1); (lit "lng", VInt 2)]]).
Proof.
  intros first.
  split; [reflexivity|]. split; [reflexivity|]. split; [reflexivity|].
  destruct (blank_before_last_comma_loses_last_object first [] [32%N]
              eq_refl eq_refl eq_refl) as [A B].
  split; [rewrite A | rewrite B]; vm_compute; reflexivity.
Defined.

(** ** [calculate_distances] of [map2.py] *)

Lemma steps_length g rest : forall before distances ds,
  Map2.steps g before rest distances = Ok ds ->
  List.length ds = List.length distances + List.length rest
  /\ firstn (List.length distances) ds = distances.
Proof.
  induction rest as [|p rest IH]; intros before distances ds H.
  - cbn [Map2.steps] in H. injection H as <-.
    split; [simpl; lia | apply firstn_all].
  - cbn [Map2.steps] in H.
    destruct (Map2.step g before p (last distances 0%R)) as [d|];
      [|discriminate].
    cbn [bind] in H. apply IH in H as [L F].
    rewrite length_app in L, F. simpl in L, F. split; [simpl; lia|].
    replace (firstn (List.length distances) ds)
      with (firstn (List.length distances)
              (firstn (List.length distances + 1) ds))
      by (rewrite firstn_firstn; f_equal; lia).
    rewrite F, firstn_app, firstn_all, Nat.sub_diag. simpl.
    now rewrite app_nil_r.
Qed.

(** X17.  Whatever [geodesic] computes, when [calculate_distances] returns it
    returns one distance for each point, the first one 0; for no point
    at all it returns the list [[0]].  When the first of two points or
    more has no [lat], it raises [KeyError]. *)
Theorem calculate_distances_one_per_point
  (geodesic_km : value * value -> value * value -> result R)
  (points : list value) :
  (forall ds, Map2.calculate_distances geodesic_km points = Ok ds ->
     List.length ds = Nat.max 1 (List.length points)
     /\ nth 0 ds 0%R = 0%R)
  /\ (forall d q rest,
        points = VDict d :: q :: rest ->
        dict_lookup d (lit "lat") = None ->
        Map2.calculate_distances geodesic_km points
        = Raise (KeyError (lit "lat"))).
Proof.
  split.
  - intros ds H. unfold Map2.calculate_distances in H.
    destruct points as [|p rest].
    + injection H as <-. now split.
    + apply steps_length in H as [L F]. simpl in L.
      split; [simpl; lia|].
      destruct ds as [|x ds]; [simpl in L; lia|].
      simpl in F. now injection F as ->.
  - intros d q rest -> E. unfold Map2.calculate_distances.
    cbn [Map2.steps]. unfold Map2.step, getitem. rewrite E. reflexivity.
Qed.

Lemma calculate_distances_one_per_point_witness :
  let g := fun (_ _ : value * value) => Ok 1%R in
  let points := [VDict [(lit "lat", VInt 1); (lit "lng", VInt 2)];
                 VDict [(lit "lat", VInt 3); (lit "lng", VInt 4)]] in
  exists ds, Map2.calculate_distances g points = Ok ds
             /\ List.length ds = 2.
Proof.
  intros g points.
  assert (H : Map2.calculate_distances g points = Ok [0; 0 + 1]%R).
  { unfold Map2.calculate_distances, points. cbn [Map2.steps].
    unfold Map2.step.
    change (getitem (VDict [(lit "lat", VInt 1); (lit "lng", VInt 2)])
              (lit "lat")) with (Ok (VInt 1)).
    change (getitem (VDict [(lit "lat", VInt 1); (lit "lng", VInt 2)])
              (lit "lng")) with (Ok (VInt 2)).
    change (getitem (VDict [(lit "lat", VInt 3); (lit "lng", VInt 4)])
              (lit "lat")) with (Ok (VInt 3)).
    change (getitem (VDict [(lit "lat", VInt 3); (lit "lng", VInt 4)])
              (lit "lng")) with (Ok (VInt 4)).
    reflexivity. }
  exists [0; 0 + 1]%R. split; [exact H|].
  exact (proj1 (proj1 (calculate_distances_one_per_point g points) _ H)).
Defined.


(** X18.  The two sensor plots of [map.py] read their field with the default
    0: on the records that [load_hike_data] returns, the series of any
    field has one value for each record, the value of the field or 0,
    and building it never raises. *)
Theorem sensor_series_never_raise (content field : str) (out : list value) :
  snd (Map1.load_hike_data content) = Ok out ->
  Map1.sensor_series field out
  = Ok (map (fun p => match p with
                      | VDict d =>
                          match dict_lookup d field with
                          | Some v => v
                          | None => VInt 0
                          end
                      | _ => VNone
                      end) out).
Proof.
  intros H.
  pose proof (proj2 (load_hike_data_errors_aux content) out H) as D.
  clear H. unfold Map1.sensor_series.
  induction D as [|p l (d & v & -> & _) _ IH]; [reflexivity|].
  cbn [mapM map]. rewrite IH. unfold get.
  destruct (dict_lookup d field); reflexivity.
Qed.

Lemma sensor_series_never_raise_witness :
  let content := lit "{'lat':1,'lng':2,'dht_temp':21},{'lat':3,'lng':4}" in
  let out := [VDict [(lit "lat", VInt 1); (lit "lng", VInt 2);
                     (lit "dht_temp", VInt 21)];
              VDict [(lit "lat", VInt 3); (lit "lng", VInt 4)]] in
  snd (Map1.load_hike_data content) = Ok out
  /\ Map1.sensor_series (lit "dht_temp") out = Ok [VInt 21; VInt 0].
Proof.
  intros content out.
  assert (H : snd (Map1.load_hike_data content) = Ok out)
    by (vm_compute; reflexivity).
  split; [exact H|].
  rewrite (sensor_series_never_raise content (lit "dht_temp") out H).
  vm_compute. reflexivity.
Defined.

End MoreParser.
